(** * HybridBatchScraper (scrap.py): scheduling, risk and merge engine

    A shallow embedding of the engine of [scrap.py]: the progress file, the
    dataset file, the session statistics, the risk assessment, the break
    planner, the continuation decision and the batch runner.

    Conventions of the model.
    - Python [int] is [Z]; Python [float] (response times, break minutes,
      rates) is the exact rational [Q].  The only float comparisons of the
      code are against the integer thresholds 95, 85, 90, 3, 5 and 0.
      [random.uniform] may return the far end of its interval once the
      result is rounded, so no statement relies on a draw staying short of
      it.
    - [self] together with the two files and the logger is one [World],
      threaded through the methods by a small state monad.  The logger is
      the list of the records emitted, oldest first.
    - What the code gets from outside is an explicit input: the clock
      ([now], local seconds, read once by each method), the draw of
      [random.random()], the outcome of loading and parsing one page
      ([PageOutcome]) and whether the files can be opened for writing
      ([disk_writable]).  A refusal is the exception that [open] or
      [to_csv] raises before the file is touched, as on a directory
      without write permission; a write that fails once the file is open,
      which with mode ['w'] leaves the file cut short, is not part of the
      model.  The browser session, the scrolling, the sleeps of the page
      loop and their log lines are the page collaborator's business and
      are not part of the world.
    - A progress file that parses holds a record of the shape the code
      itself writes.
    - The dataset file holds rows of text.  [pd.read_csv] reads a url
      back as a missing value when it is one of the texts pandas takes for
      one, and as it was written otherwise.  The type that pandas gives to
      a column holding nothing but numbers, or nothing but booleans, is
      not modelled: what is stated of a url of the store is stated of the
      urls that force pandas to read them as text ([kept_as_text]), as
      every url built from a title link does.  The other columns only pass
      through. *)

From Stdlib Require Import ZArith QArith List Ascii String Bool Lia Lqa.
Import ListNotations.

Local Open Scope Z_scope.

(** ** Data model *)

Inductive RiskLevel : Type := LOW | MEDIUM | HIGH.

Inductive Decision : Type := CONTINUE | TOMORROW.

(** [self.stats] *)
Record Stats : Type := mkStats {
  total_pages_scraped : Z;
  successful_pages : Z;
  failed_pages : Z;
  total_listings : Z;
  avg_response_time : Q;
  session_start_time : Q
}.

(** [self.continuation_rules] *)
Record Rules : Type := mkRules {
  same_day_max_batches : Z;
  min_break_minutes : Z;
  max_break_minutes : Z;
  daily_page_limit : Z;
  success_threshold : Z;
  peak_hours : Z * Z;
  off_peak_hours : Z * Z
}.

(** The rules [__init__] installs. *)
Definition default_rules : Rules :=
  mkRules 1 15 45 50 90 (9, 17) (18, 23).

(** An entry of [self.batches]. *)
Module Batch.
Record t : Type := mk {
  id : Z;
  start : Z;
  end_ : Z;
  name : string
}.
End Batch.

(** The dictionary [extract_listing_data] builds for one table row. *)
Module Listing.
Record t : Type := mk {
  index : Z;
  title : string;
  url : string;
  price : string;
  location : string;
  date : string;
  room_count : string;
  area : string;
  floor : string;
  age : string;
  scraped_at : Z;
  page_number : Z
}.
End Listing.

(** An entry of [progress['completed_batches']]. *)
Module Completed.
Record t : Type := mk {
  id : Z;
  name : string;
  start : Z;
  end_ : Z;
  completed_at : Z;
  date : Z;
  pages_scraped : Z;
  listings_found : Z
}.
End Completed.

(** The dictionary kept in [batch_progress.json]. *)
Record Progress : Type := mkProgress {
  current_batch_id : Z;
  completed_batches : list Completed.t;
  daily_pages_scraped : Z;
  last_scrape_date : Z;
  session_stats : Stats;
  next_session_time : option Z
}.

(** ** The clock

    [datetime.now()] is a number of local seconds; [strftime('%Y-%m-%d')]
    names its calendar day and [.hour] its hour of the day. *)

Definition strftime_date (now : Z) : Z := now / 86400.
Definition hour_of (now : Z) : Z := (now / 3600) mod 24.
Definition plus_one_day (now : Z) : Z := now + 86400.

(** ** Files *)

(** [batch_progress.json]: absent, present but not loadable by
    [json.load] (unreadable, empty or not JSON), or holding a record. *)
Inductive ProgressFile : Type :=
| NoProgressFile
| BadProgressFile
| ProgressJson (p : Progress).

(** [total_scrap.csv]: absent, present but refused by [pd.read_csv]
    (which an empty file is), or holding rows of text under its header. *)
Inductive CsvFile : Type :=
| NoCsvFile
| BadCsvFile
| CsvRows (rows : list Listing.t).

(** ** The logger *)

Inductive Level : Type := INFO | WARNING | ERROR.

Inductive Message : Type :=
| ProgressLoaded (p : Progress)
| CreatingNewProgressFile
| ProgressLoadingError
| ProgressSaved
| ProgressSavingError
| ScrapingPage (page : Z)
| NoListingsFound (page : Z)
| ListingProcessingError (page index : Z)
| PageListingsScraped (page n : Z)
| PageScrapingError (page : Z)
| ExistingCsvLoaded (n : Z)
| CsvNotFound
| ExistingDataLoadingError
| DuplicateCheck (n_new n_unique : Z)
| NewRecordsAdded (n : Z)
| NoNewUniqueRecords
| BatchDataSavingError
| MakingContinuationDecision (batch_id : Z)
| DailyPageLimitExceeded
| SameDayBatchLimitExceeded
| LowSuccessRate (rate : Q)
| EveningHours
| AllChecksOK
| MinuteBreakThenNextBatch (minutes : Q)
| ContinuingTomorrow
| IntelligentBreakStarting (minutes : Q)
| BreakActivity (activity : string) (minutes : Q)
| BreakCompleted
| BatchStarting (b : Batch.t)
| PageFailed (page : Z)
| PageDelay
| BatchCompleted (b : Batch.t) (n : Z).

Definition LogRecord : Type := (Level * Message)%type.

(** ** The world: [self], the disk and the log *)

Record World : Type := mkWorld {
  listings : list Listing.t;
  scraped_pages : Z;
  current_batch : option Batch.t;
  stats : Stats;
  PROGRESS_FILE : ProgressFile;
  TOTAL_CSV_FILE : CsvFile;
  disk_writable : bool;
  log : list LogRecord
}.

Definition set_listings (l : list Listing.t) (w : World) : World :=
  mkWorld l (scraped_pages w) (current_batch w) (stats w)
          (PROGRESS_FILE w) (TOTAL_CSV_FILE w) (disk_writable w) (log w).

Definition set_scraped_pages (n : Z) (w : World) : World :=
  mkWorld (listings w) n (current_batch w) (stats w)
          (PROGRESS_FILE w) (TOTAL_CSV_FILE w) (disk_writable w) (log w).

Definition set_current_batch (b : option Batch.t) (w : World) : World :=
  mkWorld (listings w) (scraped_pages w) b (stats w)
          (PROGRESS_FILE w) (TOTAL_CSV_FILE w) (disk_writable w) (log w).

Definition set_stats (s : Stats) (w : World) : World :=
  mkWorld (listings w) (scraped_pages w) (current_batch w) s
          (PROGRESS_FILE w) (TOTAL_CSV_FILE w) (disk_writable w) (log w).

Definition set_progress_file (f : ProgressFile) (w : World) : World :=
  mkWorld (listings w) (scraped_pages w) (current_batch w) (stats w)
          f (TOTAL_CSV_FILE w) (disk_writable w) (log w).

Definition set_csv_file (f : CsvFile) (w : World) : World :=
  mkWorld (listings w) (scraped_pages w) (current_batch w) (stats w)
          (PROGRESS_FILE w) f (disk_writable w) (log w).

Definition set_log (l : list LogRecord) (w : World) : World :=
  mkWorld (listings w) (scraped_pages w) (current_batch w) (stats w)
          (PROGRESS_FILE w) (TOTAL_CSV_FILE w) (disk_writable w) l.

(** ** The state monad of the methods *)

Definition M (A : Type) : Type := World -> A * World.

Definition ret {A : Type} (a : A) : M A := fun w => (a, w).

Definition bind {A B : Type} (m : M A) (k : A -> M B) : M B :=
  fun w => let (a, w') := m w in k a w'.

Declare Scope scraper_scope.
Delimit Scope scraper_scope with scraper.
Notation "x <- m ;; k" := (bind m (fun x => k))
  (at level 61, m at next level, right associativity) : scraper_scope.
Notation "m ;; k" := (bind m (fun _ => k))
  (at level 61, right associativity) : scraper_scope.
Local Open Scope scraper_scope.

Definition get : M World := fun w => (w, w).
Definition modify (f : World -> World) : M unit := fun w => (tt, f w).

Definition logger (lvl : Level) (msg : Message) : M unit :=
  modify (fun w => set_log (log w ++ [(lvl, msg)]) w).

(** [for x in xs: body(x)] *)
Fixpoint for_each {A : Type} (xs : list A) (body : A -> M unit) : M unit :=
  match xs with
  | [] => ret tt
  | x :: rest => body x ;; for_each rest body
  end.

(** [range(a, b)] and [len] *)
Definition range (a b : Z) : list Z :=
  map (fun i => a + Z.of_nat i) (seq 0 (Z.to_nat (b - a))).

Definition len {A : Type} (l : list A) : Z := Z.of_nat (List.length l).

(** ** Success rate and risk level *)

Definition Qltb (x y : Q) : bool := negb (Qle_bool y x).

(** [calculate_success_rate] *)
Definition calculate_success_rate (s : Stats) : Q :=
  let total_pages := successful_pages s + failed_pages s in
  if total_pages =? 0 then 100%Q
  else ((inject_Z (successful_pages s) / inject_Z total_pages) * 100)%Q.

(** [assess_risk_level] *)
Definition assess_risk_level (s : Stats) : RiskLevel :=
  let success_rate := calculate_success_rate s in
  let avg := avg_response_time s in
  if Qle_bool 95 success_rate && Qltb avg 3 then LOW
  else if Qle_bool 85 success_rate && Qltb avg 5 then MEDIUM
  else HIGH.

(** ** The progress store *)

(** [save_progress]: the write is attempted and a refusal is only logged.
    The refusal is that of [open(self.PROGRESS_FILE, 'w')], which leaves
    the file as it was. *)
Definition save_progress (progress_data : Progress) : M unit :=
  w <- get ;;
  if disk_writable w then
    modify (set_progress_file (ProgressJson progress_data)) ;;
    logger INFO ProgressSaved
  else
    logger ERROR ProgressSavingError.

(** [create_initial_progress] *)
Definition create_initial_progress (now : Z) : M Progress :=
  w <- get ;;
  let progress :=
    {| current_batch_id := 1;
       completed_batches := [];
       daily_pages_scraped := 0;
       last_scrape_date := strftime_date now;
       session_stats := stats w;
       next_session_time := None |} in
  save_progress progress ;;
  ret progress.

(** [load_progress] *)
Definition load_progress (now : Z) : M Progress :=
  w <- get ;;
  match PROGRESS_FILE w with
  | ProgressJson progress =>
      logger INFO (ProgressLoaded progress) ;;
      ret progress
  | NoProgressFile =>
      logger INFO CreatingNewProgressFile ;;
      create_initial_progress now
  | BadProgressFile =>
      logger ERROR ProgressLoadingError ;;
      create_initial_progress now
  end.

(** [get_next_batch] *)
Definition get_next_batch (batches : list Batch.t) (now : Z)
  : M (option Batch.t) :=
  progress <- load_progress now ;;
  ret (find (fun batch => Batch.id batch =? current_batch_id progress) batches).

(** ** Scraping one page *)

(** A [searchResultsItem] row as [extract_listing_data] reads it: the
    title link with its text and [href], the three value cells, the
    attribute cells, and the time at which the row is stamped. *)
Module Row.
Record t : Type := mk {
  title_elem : option (string * option string);
  price_elem : option string;
  location_elem : option string;
  date_elem : option string;
  attributes : list string;
  stamped_at : Z
}.
End Row.

(** What the [try] block of [scrape_page] meets before it touches [self]:
    an exception while the page is loaded, or the rows that
    [soup.find_all] returns together with the seconds spent. *)
Inductive PageOutcome : Type :=
| PageException
| PageRows (rows : list Row.t) (response_time : Q).

Definition text_or_na (elem : option string) : string :=
  match elem with
  | Some text => text
  | None => "N/A"%string
  end.

(** [extract_listing_data], without its logging: [None] is the [except]
    branch, reached when the title link has no [href]. *)
Definition extract_fields (listing : Row.t) (index page_num : Z)
  : option Listing.t :=
  match Row.title_elem listing with
  | Some (_, None) => None
  | title_elem =>
      Some {|
        Listing.index := index;
        Listing.title :=
          match title_elem with Some (text, _) => text | None => "N/A"%string end;
        Listing.url :=
          match title_elem with
          | Some (_, Some href) =>
              ("https://example-realestate-site.com" ++ href)%string
          | _ => "N/A"%string
          end;
        Listing.price := text_or_na (Row.price_elem listing);
        Listing.location := text_or_na (Row.location_elem listing);
        Listing.date := text_or_na (Row.date_elem listing);
        Listing.room_count := nth 0 (Row.attributes listing) "N/A"%string;
        Listing.area := nth 1 (Row.attributes listing) "N/A"%string;
        Listing.floor := nth 2 (Row.attributes listing) "N/A"%string;
        Listing.age := nth 3 (Row.attributes listing) "N/A"%string;
        Listing.scraped_at := Row.stamped_at listing;
        Listing.page_number := page_num
      |}
  end.

(** [extract_listing_data] *)
Definition extract_listing_data (listing : Row.t) (index page_num : Z)
  : M (option Listing.t) :=
  match extract_fields listing index page_num with
  | Some listing_data => ret (Some listing_data)
  | None =>
      logger WARNING (ListingProcessingError page_num index) ;;
      ret None
  end.

(** The loop [for i, listing in enumerate(listings)] of [scrape_page];
    [i] is the position of the head of [rows]. *)
Fixpoint process_listings (rows : list Row.t) (i page_num : Z)
  : M (list Listing.t) :=
  match rows with
  | [] => ret []
  | listing :: rest =>
      listing_data <- extract_listing_data listing (i + 1) page_num ;;
      page_listings <- process_listings rest (i + 1) page_num ;;
      ret (match listing_data with
           | Some d => d :: page_listings
           | None => page_listings
           end)
  end.

Definition add_failed_page (s : Stats) : Stats :=
  mkStats (total_pages_scraped s) (successful_pages s) (failed_pages s + 1)
          (total_listings s) (avg_response_time s) (session_start_time s).

(** The three updates of [self.stats] after a page with rows. *)
Definition add_successful_page (n : Z) (response_time : Q) (s : Stats)
  : Stats :=
  let successful := successful_pages s + 1 in
  mkStats (total_pages_scraped s) successful (failed_pages s)
          (total_listings s + n)
          ((avg_response_time s * inject_Z (successful - 1) + response_time)
           / inject_Z successful)%Q
          (session_start_time s).

(** [scrape_page] *)
Definition scrape_page (fetch : Z -> PageOutcome) (page_num : Z) : M bool :=
  logger INFO (ScrapingPage page_num) ;;
  match fetch page_num with
  | PageException =>
      logger ERROR (PageScrapingError page_num) ;;
      modify (fun w => set_stats (add_failed_page (stats w)) w) ;;
      ret false
  | PageRows [] _ =>
      logger WARNING (NoListingsFound page_num) ;;
      modify (fun w => set_stats (add_failed_page (stats w)) w) ;;
      ret false
  | PageRows rows response_time =>
      page_listings <- process_listings rows 0 page_num ;;
      modify (fun w => set_listings (listings w ++ page_listings) w) ;;
      modify (fun w => set_scraped_pages (scraped_pages w + 1) w) ;;
      modify (fun w =>
        set_stats
          (add_successful_page (len page_listings) response_time (stats w)) w) ;;
      logger INFO (PageListingsScraped page_num (len page_listings)) ;;
      ret true
  end.

(** ** The dataset store *)

(** A value of the [url] column of a frame: a text, or the missing value
    that pandas writes [NaN]. *)
Inductive Cell : Type :=
| NaN
| Str (s : string).

Definition cell_eqb (a b : Cell) : bool :=
  match a, b with
  | NaN, NaN => true
  | Str s, Str t => String.eqb s t
  | _, _ => false
  end.

(** A row of a frame: its [url] value and the record it stands for, whose
    other columns only pass through. *)
Record FrameRow : Type := mkRow {
  url_cell : Cell;
  record : Listing.t
}.

Definition DataFrame : Type := list FrameRow.

(** [df['url']] *)
Definition column (df : DataFrame) : list Cell := map url_cell df.

(** [pd.DataFrame(self.listings)]: the urls are the strings of the
    dictionaries. *)
Definition from_listings (l : list Listing.t) : DataFrame :=
  map (fun r => mkRow (Str (Listing.url r)) r) l.

(** The texts that [pd.read_csv] reads as a missing value when called, as
    here, with its default [na_values]. *)
Definition na_values : list string :=
  [EmptyString; "#N/A"; "#N/A N/A"; "#NA"; "-1.#IND"; "-1.#QNAN"; "-NaN";
   "-nan"; "1.#IND"; "1.#QNAN"; "<NA>"; "N/A"; "NA"; "NULL"; "NaN"; "None";
   "n/a"; "nan"; "null"]%string.

Definition is_na (text : string) : bool :=
  existsb (String.eqb text) na_values.

(** The first characters of a text that pandas cannot take for anything
    but a text: the letters other than f, i, n and t.  A number begins
    with a digit, a sign, a point, a blank or, as "inf" and "Infinity" in
    any case, with an i; a boolean is one of "True", "TRUE", "true",
    "False", "FALSE", "false"; the missing values are [na_values]. *)
Definition text_initials : list ascii :=
  list_ascii_of_string "abcdeghjklmopqrsuvwxyzABCDEGHJKLMOPQRSUVWXYZ"%string.

(** A url that [pd.read_csv] reads back as the text it is, whatever else
    the column holds: one that begins with a letter of [text_initials].
    The urls [extract_listing_data] builds from a title link begin with
    https. *)
Definition kept_as_text (text : string) : bool :=
  match text with
  | EmptyString => false
  | String c _ => existsb (Ascii.eqb c) text_initials
  end.

(** How [pd.read_csv] reads a url written in the file: as a missing value
    when it is one of [na_values], as it was written otherwise.  The latter
    is what pandas does of a url [kept_as_text]; a column all of whose
    urls are numbers, or booleans, pandas reads as numbers or booleans,
    which no text of a batch matches, and this is left out here. *)
Definition read_cell (text : string) : Cell :=
  if is_na text then NaN else Str text.

(** [pd.read_csv] on the rows of the file. *)
Definition read_csv (rows : list Listing.t) : DataFrame :=
  map (fun r => mkRow (read_cell (Listing.url r)) r) rows.

Definition with_url (u : string) (r : Listing.t) : Listing.t :=
  Listing.mk (Listing.index r) (Listing.title r) u (Listing.price r)
             (Listing.location r) (Listing.date r) (Listing.room_count r)
             (Listing.area r) (Listing.floor r) (Listing.age r)
             (Listing.scraped_at r) (Listing.page_number r).

(** The row of text [to_csv] writes for a row of a frame; a missing value
    is written as the empty text. *)
Definition written_row (row : FrameRow) : Listing.t :=
  with_url (match url_cell row with
            | NaN => EmptyString
            | Str s => s
            end) (record row).

Definition empty (df : DataFrame) : bool :=
  match df with
  | [] => true
  | _ :: _ => false
  end.

(** [column.isin(values)] for one value of the column; a missing value
    matches a missing value. *)
Definition isin (c : Cell) (values : list Cell) : bool :=
  existsb (cell_eqb c) values.

(** [df.drop_duplicates(subset=['url'], keep='last')]: a row stays when no
    later row has its url; the order of the rows is kept. *)
Fixpoint drop_duplicates_keep_last (df : DataFrame) : DataFrame :=
  match df with
  | [] => []
  | row :: rest =>
      if isin (url_cell row) (column rest)
      then drop_duplicates_keep_last rest
      else row :: drop_duplicates_keep_last rest
  end.

(** [load_existing_data] *)
Definition load_existing_data : M DataFrame :=
  w <- get ;;
  match TOTAL_CSV_FILE w with
  | CsvRows rows =>
      let existing_df := read_csv rows in
      logger INFO (ExistingCsvLoaded (len existing_df)) ;;
      ret existing_df
  | NoCsvFile =>
      logger INFO CsvNotFound ;;
      ret []
  | BadCsvFile =>
      logger ERROR ExistingDataLoadingError ;;
      ret []
  end.

(** [remove_duplicates] *)
Definition remove_duplicates (new_df existing_df : DataFrame) : M DataFrame :=
  if empty existing_df then ret new_df
  else
    let combined_df := existing_df ++ new_df in
    let deduplicated_df := drop_duplicates_keep_last combined_df in
    let new_records :=
      filter (fun row => negb (isin (url_cell row) (column existing_df)))
             deduplicated_df in
    logger INFO (DuplicateCheck (len new_df) (len new_records)) ;;
    ret new_records.

Inductive FileMode : Type := mode_w | mode_a.

(** [df.to_csv(self.TOTAL_CSV_FILE, mode=...)]; [false] stands for the
    exception of a file that cannot be opened for writing, which leaves it
    as it was.  Mode ['w'] replaces the file, mode ['a']
    adds the rows below those the file holds; [save_batch_data] takes mode
    ['a'] only after it has read rows from the file. *)
Definition to_csv (df : DataFrame) (mode : FileMode) : M bool :=
  w <- get ;;
  if disk_writable w then
    modify (set_csv_file
              match mode, TOTAL_CSV_FILE w with
              | mode_a, CsvRows rows => CsvRows (rows ++ map written_row df)
              | mode_a, BadCsvFile => BadCsvFile
              | _, _ => CsvRows (map written_row df)
              end) ;;
    ret true
  else ret false.

(** [save_batch_data] *)
Definition save_batch_data : M unit :=
  w <- get ;;
  match listings w with
  | [] => ret tt
  | _ :: _ =>
      existing_df <- load_existing_data ;;
      let new_df := from_listings (listings w) in
      unique_new_df <- remove_duplicates new_df existing_df ;;
      if negb (empty unique_new_df) then
        written <- to_csv unique_new_df
                          (if empty existing_df then mode_w else mode_a) ;;
        if written
        then logger INFO (NewRecordsAdded (len unique_new_df))
        else logger ERROR BatchDataSavingError
      else logger INFO NoNewUniqueRecords
  end.

(** ** Breaks *)

(** [random.uniform(a, b)] is [a + (b - a) * random()]; [r] is the draw of
    [random()], a number of the interval [0, 1). *)
Definition uniform (a b r : Q) : Q := (a + (b - a) * r)%Q.

Definition is_draw (r : Q) : Prop := (0 <= r /\ r < 1)%Q.

(** A call either returns or lets an exception escape to its caller. *)
Inductive Outcome (A : Type) : Type :=
| Returns (a : A)
| Raises.
Arguments Returns {A} a.
Arguments Raises {A}.

Section Engine.

(** [self.continuation_rules] *)
Variable rules : Rules.

(** [is_peak_hours] *)
Definition is_peak_hours (now : Z) : bool :=
  let current_hour := hour_of now in
  let (peak_start, peak_end) := peak_hours rules in
  (peak_start <=? current_hour) && (current_hour <=? peak_end).

(** [calculate_optimal_break] *)
Definition calculate_optimal_break (r : Q) : M Q :=
  w <- get ;;
  let base_break := inject_Z (min_break_minutes rules) in
  let max_break := inject_Z (max_break_minutes rules) in
  let risk_level := assess_risk_level (stats w) in
  match risk_level with
  | LOW => ret (uniform base_break (base_break + 30) r)
  | MEDIUM => ret (uniform (base_break + 30) (base_break + 60) r)
  | HIGH => ret (uniform (base_break + 60) max_break r)
  end.

Definition break_activities : list (string * Q) :=
  [("Coffee break"%string, 3 # 10); ("Email check"%string, 2 # 10);
   ("Social media"%string, 2 # 10); ("Rest"%string, 3 # 10)].

(** The loop of [intelligent_break] over the activities; [time.sleep]
    raises [ValueError] on a negative length, which nothing here
    catches. *)
Fixpoint break_loop (activities : list (string * Q)) (total_seconds : Q)
  : M (Outcome unit) :=
  match activities with
  | [] => ret (Returns tt)
  | (activity_name, ratio) :: rest =>
      let activity_duration := (total_seconds * ratio)%Q in
      logger INFO (BreakActivity activity_name (activity_duration / 60)) ;;
      if Qle_bool 0 activity_duration
      then break_loop rest total_seconds
      else ret Raises
  end.

(** [intelligent_break] *)
Definition intelligent_break (duration_minutes : Q) : M (Outcome unit) :=
  logger INFO (IntelligentBreakStarting duration_minutes) ;;
  let total_seconds := (duration_minutes * 60)%Q in
  slept <- break_loop break_activities total_seconds ;;
  match slept with
  | Returns _ => logger INFO BreakCompleted ;; ret (Returns tt)
  | Raises => ret Raises
  end.

(** ** The continuation decision *)

Definition with_next_session_time (t : Z) (p : Progress) : Progress :=
  mkProgress (current_batch_id p) (completed_batches p)
             (daily_pages_scraped p) (last_scrape_date p)
             (session_stats p) (Some t).

(** [schedule_tomorrow] *)
Definition schedule_tomorrow (now : Z) : M Decision :=
  logger INFO ContinuingTomorrow ;;
  progress <- load_progress now ;;
  save_progress (with_next_session_time (plus_one_day now) progress) ;;
  ret TOMORROW.

(** [continue_with_break] *)
Definition continue_with_break (r : Q) : M (Outcome Decision) :=
  break_duration <- calculate_optimal_break r ;;
  logger INFO (MinuteBreakThenNextBatch break_duration) ;;
  rested <- intelligent_break break_duration ;;
  match rested with
  | Returns _ => ret (Returns CONTINUE)
  | Raises => ret Raises
  end.

(** [decide_continuation]; [r] is the draw the break would use. *)
Definition decide_continuation (completed_batch : Batch.t) (now : Z) (r : Q)
  : M (Outcome Decision) :=
  logger INFO (MakingContinuationDecision (Batch.id completed_batch)) ;;
  progress <- load_progress now ;;
  if daily_page_limit rules <=? daily_pages_scraped progress then
    logger INFO DailyPageLimitExceeded ;;
    d <- schedule_tomorrow now ;; ret (Returns d)
  else
    let completed_today :=
      len (filter (fun b => Completed.date b =? strftime_date now)
                  (completed_batches progress)) in
    if same_day_max_batches rules <=? completed_today then
      logger INFO SameDayBatchLimitExceeded ;;
      d <- schedule_tomorrow now ;; ret (Returns d)
    else
      w <- get ;;
      let success_rate := calculate_success_rate (stats w) in
      if Qltb success_rate (inject_Z (success_threshold rules)) then
        logger INFO (LowSuccessRate success_rate) ;;
        d <- schedule_tomorrow now ;; ret (Returns d)
      else
        let current_hour := hour_of now in
        if 18 <=? current_hour then
          logger INFO EveningHours ;;
          d <- schedule_tomorrow now ;; ret (Returns d)
        else
          logger INFO AllChecksOK ;;
          continue_with_break r.

(** ** Running a batch *)

(** [smart_page_delay]: a pause of 60 to 150 seconds cut in chunks of at
    least 10 seconds; only its log line is kept. *)
Definition smart_page_delay : M unit := logger INFO PageDelay.

(** The body of the loop of [run_batch]: a failed page is logged and the
    loop goes on; a delay follows every page but the last. *)
Definition batch_page (fetch : Z -> PageOutcome) (batch_info : Batch.t)
           (page : Z) : M unit :=
  success <- scrape_page fetch page ;;
  (if negb success then logger ERROR (PageFailed page) else ret tt) ;;
  (if page <? Batch.end_ batch_info then smart_page_delay else ret tt).

(** [run_batch]; [now] is the clock when the progress is updated. *)
Definition run_batch (fetch : Z -> PageOutcome) (batch_info : Batch.t)
           (now : Z) : M bool :=
  logger INFO (BatchStarting batch_info) ;;
  modify (set_current_batch (Some batch_info)) ;;
  modify (set_listings []) ;;
  for_each (range (Batch.start batch_info) (Batch.end_ batch_info + 1))
           (batch_page fetch batch_info) ;;
  save_batch_data ;;
  progress <- load_progress now ;;
  w <- get ;;
  let pages :=
    len (range (Batch.start batch_info) (Batch.end_ batch_info + 1)) in
  let progress' :=
    {| current_batch_id := Batch.id batch_info + 1;
       completed_batches :=
         completed_batches progress ++
         [{| Completed.id := Batch.id batch_info;
             Completed.name := Batch.name batch_info;
             Completed.start := Batch.start batch_info;
             Completed.end_ := Batch.end_ batch_info;
             Completed.completed_at := now;
             Completed.date := strftime_date now;
             Completed.pages_scraped := pages;
             Completed.listings_found := len (listings w) |}];
       daily_pages_scraped := daily_pages_scraped progress + pages;
       last_scrape_date := last_scrape_date progress;
       session_stats := stats w;
       next_session_time := next_session_time progress |} in
  save_progress progress' ;;
  logger INFO (BatchCompleted batch_info (len (listings w))) ;;
  ret true.

End Engine.


(** ** Vocabulary of the statements *)

(** What a progress file holds of the three counters, a missing or
    unloadable file counting as the initial state. *)
Definition stored_daily_pages (f : ProgressFile) : Z :=
  match f with
  | ProgressJson p => daily_pages_scraped p
  | NoProgressFile | BadProgressFile => 0
  end.

Definition stored_completed (f : ProgressFile) : list Completed.t :=
  match f with
  | ProgressJson p => completed_batches p
  | NoProgressFile | BadProgressFile => []
  end.

Definition stored_batch_id (f : ProgressFile) : Z :=
  match f with
  | ProgressJson p => current_batch_id p
  | NoProgressFile | BadProgressFile => 1
  end.

(** The rows of text that a dataset file holds, a missing or unreadable
    file holding none. *)
Definition stored_rows (f : CsvFile) : list Listing.t :=
  match f with
  | CsvRows rows => rows
  | NoCsvFile | BadCsvFile => []
  end.

(** Merging a batch of records into the dataset store: what [run_batch]
    does with the listings it collected. *)
Definition merge (batch : list Listing.t) (w : World) : World :=
  snd (save_batch_data (set_listings batch w)).

(** The urls of rows of text. *)
Definition urls (rows : list Listing.t) : list string := map Listing.url rows.

(** The rows of a batch that [remove_duplicates] lets through against a
    store holding rows: for each url that is not among the values read
    from the store, the last row of the batch with that url. *)
Definition fresh_rows (stored batch : list Listing.t) : DataFrame :=
  filter (fun row => negb (isin (url_cell row) (column (read_csv stored))))
         (drop_duplicates_keep_last (from_listings batch)).

(** The same as records. *)
Definition fresh_records (stored batch : list Listing.t) : list Listing.t :=
  map record (fresh_rows stored batch).

(** The records and the warnings that the rows of a page yield, [i] being
    the position of the first row. *)
Fixpoint extracted (rows : list Row.t) (i page_num : Z) : list Listing.t :=
  match rows with
  | [] => []
  | row :: rest =>
      match extract_fields row (i + 1) page_num with
      | Some d => d :: extracted rest (i + 1) page_num
      | None => extracted rest (i + 1) page_num
      end
  end.

Fixpoint extraction_warnings (rows : list Row.t) (i page_num : Z)
  : list LogRecord :=
  match rows with
  | [] => []
  | row :: rest =>
      match extract_fields row (i + 1) page_num with
      | Some _ => extraction_warnings rest (i + 1) page_num
      | None => (WARNING, ListingProcessingError page_num (i + 1))
                  :: extraction_warnings rest (i + 1) page_num
      end
  end.

(** The pages that [scrape_page] counts as failed: those whose loading
    raises and those without a row. *)
Definition page_fails (o : PageOutcome) : bool :=
  match o with
  | PageException => true
  | PageRows [] _ => true
  | PageRows (_ :: _) _ => false
  end.

(** The pages [scrape_page] was called on, as the log tells them. *)
Fixpoint visited (l : list LogRecord) : list Z :=
  match l with
  | [] => []
  | (_, ScrapingPage page) :: rest => page :: visited rest
  | _ :: rest => visited rest
  end.

(** *** The guard chain of the specification

    The continuation decision as the specification words it: four guards
    in a fixed order, the first that trips deciding for tomorrow, and
    CONTINUE when none does. *)

Inductive Guard : Type :=
| DailyPageLimit
| SameDayBatchLimit
| SuccessThreshold
| HourCutoff.

Definition guard_chain : list Guard :=
  [DailyPageLimit; SameDayBatchLimit; SuccessThreshold; HourCutoff].

Definition guard_trips (rules : Rules) (progress : Progress) (s : Stats)
           (now : Z) (g : Guard) : bool :=
  match g with
  | DailyPageLimit =>
      daily_page_limit rules <=? daily_pages_scraped progress
  | SameDayBatchLimit =>
      same_day_max_batches rules <=?
      len (filter (fun b => Completed.date b =? strftime_date now)
                  (completed_batches progress))
  | SuccessThreshold =>
      Qltb (calculate_success_rate s) (inject_Z (success_threshold rules))
  | HourCutoff => 18 <=? hour_of now
  end.

Definition first_tripped (rules : Rules) (progress : Progress) (s : Stats)
           (now : Z) : option Guard :=
  find (guard_trips rules progress s now) guard_chain.

(** The guards whose verdict the log records, oldest first. *)
Fixpoint guards_logged (l : list LogRecord) : list Guard :=
  match l with
  | [] => []
  | (_, DailyPageLimitExceeded) :: rest => DailyPageLimit :: guards_logged rest
  | (_, SameDayBatchLimitExceeded) :: rest =>
      SameDayBatchLimit :: guards_logged rest
  | (_, LowSuccessRate _) :: rest => SuccessThreshold :: guards_logged rest
  | (_, EveningHours) :: rest => HourCutoff :: guards_logged rest
  | _ :: rest => guards_logged rest
  end.

(** ** Concrete data for the scenarios *)

(** A process that has just started, on a disk without either file. *)
Definition fresh_world : World :=
  mkWorld [] 0 None (mkStats 0 0 0 0 0 0) NoProgressFile NoCsvFile true [].

Definition listing (u p : string) : Listing.t :=
  Listing.mk 1 "flat" u p "N/A" "N/A" "N/A" "N/A" "N/A" "N/A" 0 51.

(** The batch [__init__] configures. *)
Definition batch_1 : Batch.t := Batch.mk 1 51 60 "Batch 1 (51-60)".

(** A row with a title link, and a fetcher that raises on page 55 and finds
    one row on every other page. *)
Definition sample_row : Row.t :=
  Row.mk (Some ("flat"%string, Some "/listing/1"%string))
         (Some "100"%string) None None ["3+1"%string] 0.

Definition fails_on_55 (page : Z) : PageOutcome :=
  if page =? 55 then PageException else PageRows [sample_row] 2.

(** A progress file written the day before the clock value 100000, with 50
    pages counted on that day. *)
Definition progress_of_yesterday : Progress :=
  {| current_batch_id := 1;
     completed_batches := [];
     daily_pages_scraped := 50;
     last_scrape_date := 0;
     session_stats := mkStats 0 0 0 0 0 0;
     next_session_time := None |}.

(** Statistics of a session whose only page failed: the risk is HIGH. *)
Definition stats_one_failure : Stats := mkStats 0 0 1 0 0 0.

(** A row of the results table without a title link, and the record that
    [extract_listing_data] builds from it on page 51: its url is "N/A". *)
Definition untitled_row : Row.t :=
  Row.mk None (Some "100"%string) None None ["3+1"%string] 0.

Definition untitled_listings : list Listing.t := extracted [untitled_row] 0 51.

From Stdlib Require Import Sorted.

(** ** Further vocabulary *)

(** The risk levels from the most to the least favourable. *)
Definition risk_rank (level : RiskLevel) : Z :=
  match level with
  | LOW => 0
  | MEDIUM => 1
  | HIGH => 2
  end.

(** The records that [scrape_page] adds to [self.listings] for a page. *)
Definition page_records (fetch : Z -> PageOutcome) (page : Z)
  : list Listing.t :=
  match fetch page with
  | PageException => []
  | PageRows rows _ => extracted rows 0 page
  end.

(** The records of the pages of a list, page after page. *)
Definition collected (fetch : Z -> PageOutcome) (pages : list Z)
  : list Listing.t :=
  flat_map (page_records fetch) pages.

(** The response times of the pages that [scrape_page] counts as
    successful. *)
Definition response_times (fetch : Z -> PageOutcome) (pages : list Z)
  : list Q :=
  flat_map (fun page =>
              match fetch page with
              | PageRows (_ :: _) response_time => [response_time]
              | _ => []
              end) pages.

Definition Qsum (l : list Q) : Q := fold_right Qplus 0%Q l.

(** The statistics once pages with the given response times have
    succeeded one after the other, each counted by the update of
    [scrape_page]; the listings of the pages are left out of the count. *)
Definition after_successes (times : list Q) (s : Stats) : Stats :=
  fold_left (fun s response_time => add_successful_page 0 response_time s)
            times s.

(** The world of [run_batch] when its loop over the pages is over. *)
Definition after_pages (fetch : Z -> PageOutcome) (batch_info : Batch.t)
           (w : World) : World :=
  snd (for_each (range (Batch.start batch_info) (Batch.end_ batch_info + 1))
                (batch_page fetch batch_info)
                (set_listings []
                   (set_current_batch (Some batch_info)
                      (snd (logger INFO (BatchStarting batch_info) w))))).

(** The branch of [decide_continuation] that a tripped guard takes: its
    message, then [schedule_tomorrow]. *)
Definition tomorrow_after (msg : Message) (now : Z) : M (Outcome Decision) :=
  logger INFO msg ;; d <- schedule_tomorrow now ;; ret (Returns d).

(** The world in which [decide_continuation] evaluates its guards. *)
Definition deciding_world (completed_batch : Batch.t) (now : Z) (w : World)
  : World :=
  snd (load_progress now
         (snd (logger INFO
                 (MakingContinuationDecision (Batch.id completed_batch)) w))).

(** ** The page delay

    The lengths that [smart_page_delay] passes to [time.sleep]: the delay
    drawn between [MIN_PAGE_DELAY] and [MAX_PAGE_DELAY] is cut in [chunks]
    equal parts, [chunks] being the outcome of [random.randint(3, 6)]; a
    part of even rank is slept whole, a part of odd rank follows a mouse
    movement and is slept one second short. *)

Definition MIN_PAGE_DELAY : Q := 60.
Definition MAX_PAGE_DELAY : Q := 150.

Definition page_delay_sleeps (delay : Q) (chunks : Z) : list Q :=
  let chunk_size := (delay / inject_Z chunks)%Q in
  map (fun i => if i mod 2 =? 0 then chunk_size else (chunk_size - 1)%Q)
      (range 0 chunks).

Definition smart_page_delay_sleeps (r : Q) (chunks : Z) : list Q :=
  page_delay_sleeps (uniform MIN_PAGE_DELAY MAX_PAGE_DELAY r) chunks.

(** ** The orchestrator *)

(** What one call of [run_hybrid_system] gets from outside: whether
    [setup_driver] succeeds, the pages, the clock when the next batch is
    looked up, when the batch completes and when the continuation is
    decided, and the draw of the break. *)
Record Turn : Type := mkTurn {
  setup_ok : bool;
  fetch_of : Z -> PageOutcome;
  clock_start : Z;
  clock_batch : Z;
  clock_decide : Z;
  draw_of : Q
}.

(** The lines that [run_hybrid_system] itself logs. *)
Inductive HybridEvent : Type :=
| HybridStarting
| DriverSetupFailed
| AllBatchesCompleted
| BatchFailed
| UnexpectedError
| SystemWillContinueTomorrow.

(** The run of [run_hybrid_system]: it returns, having logged these lines
    of its own, oldest first; or the calls went deeper than the turns
    given, and the lines are those logged so far. *)
Inductive Run : Type :=
| Ran (events : list HybridEvent)
| Unanswered (events : list HybridEvent).

Definition after_starting (inner : Run) : Run :=
  match inner with
  | Ran events => Ran (HybridStarting :: events)
  | Unanswered events => Unanswered (HybridStarting :: events)
  end.

(** [run_hybrid_system], one turn for each call of the recursion.  Its
    own log lines are gathered in the result; the [finally] clause only
    closes the browser.  An exception of [decide_continuation] is caught
    by [except Exception]. *)
Fixpoint run_hybrid_system (rules : Rules) (batches : list Batch.t)
         (turns : list Turn) : M Run :=
  match turns with
  | [] => ret (Unanswered [])
  | turn :: later =>
      if negb (setup_ok turn)
      then ret (Ran [HybridStarting; DriverSetupFailed])
      else
        next_batch <- get_next_batch batches (clock_start turn) ;;
        match next_batch with
        | None => ret (Ran [HybridStarting; AllBatchesCompleted])
        | Some batch =>
            batch_success <- run_batch (fetch_of turn) batch
                                       (clock_batch turn) ;;
            if negb batch_success
            then ret (Ran [HybridStarting; BatchFailed])
            else
              decision <- decide_continuation rules batch
                                              (clock_decide turn)
                                              (draw_of turn) ;;
              match decision with
              | Raises => ret (Ran [HybridStarting; UnexpectedError])
              | Returns TOMORROW =>
                  ret (Ran [HybridStarting; SystemWillContinueTomorrow])
              | Returns CONTINUE =>
                  inner <- run_hybrid_system rules batches later ;;
                  ret (after_starting inner)
              end
        end
  end.

(** The configured batches that are still to come when the stored id is
    [id]. *)
Definition batches_from (id : Z) (batches : list Batch.t) : list Batch.t :=
  filter (fun b => id <=? Batch.id b) batches.
(** * Properties *)

(** ** Risk assessment *)

Lemma Qltb_lt (x y : Q) : Qltb x y = true <-> (x < y)%Q.
Proof.
  unfold Qltb. rewrite negb_true_iff.
  split; intro H.
  - apply Qnot_le_lt. intro Hle. apply Qle_bool_iff in Hle. congruence.
  - destruct (Qle_bool y x) eqn:E; [|reflexivity].
    apply Qle_bool_iff in E. exfalso. apply (Qlt_not_le _ _ H E).
Qed.

Lemma success_rate_no_pages (s : Stats) :
  successful_pages s + failed_pages s = 0 ->
  calculate_success_rate s = 100%Q.
Proof.
  intro H. unfold calculate_success_rate. rewrite H. reflexivity.
Qed.

Lemma success_rate_some_pages (s : Stats) :
  successful_pages s + failed_pages s <> 0 ->
  (calculate_success_rate s ==
   100 * inject_Z (successful_pages s)
   / inject_Z (successful_pages s + failed_pages s))%Q.
Proof.
  intro H. unfold calculate_success_rate.
  destruct (successful_pages s + failed_pages s =? 0) eqn:E.
  - apply Z.eqb_eq in E. contradiction.
  - field. intro Hz.
    unfold Qeq in Hz. simpl in Hz. lia.
Qed.

(** C5. The risk level is LOW exactly when the success rate is at least 95
    and the average response time is below 3; MEDIUM exactly when that fails
    and the rate is at least 85 with the average below 5; HIGH exactly when
    both fail.  The success rate is [100 * successful / (successful +
    failed)], and 100 when no page has been counted. *)
Theorem assess_risk_level_spec (s : Stats) :
  let rate := calculate_success_rate s in
  let avg := avg_response_time s in
  let low := (95 <= rate /\ avg < 3)%Q in
  let medium := (85 <= rate /\ avg < 5)%Q in
  (assess_risk_level s = LOW <-> low) /\
  (assess_risk_level s = MEDIUM <-> ~ low /\ medium) /\
  (assess_risk_level s = HIGH <-> ~ low /\ ~ medium) /\
  (successful_pages s + failed_pages s = 0 -> rate = 100%Q) /\
  (successful_pages s + failed_pages s <> 0 ->
   (rate == 100 * inject_Z (successful_pages s)
            / inject_Z (successful_pages s + failed_pages s))%Q).
Proof.
  cbv zeta.
  assert (HL : Qle_bool 95 (calculate_success_rate s)
               && Qltb (avg_response_time s) 3 = true
               <-> (95 <= calculate_success_rate s /\ avg_response_time s < 3)%Q).
  { rewrite andb_true_iff, Qle_bool_iff, Qltb_lt. tauto. }
  assert (HM : Qle_bool 85 (calculate_success_rate s)
               && Qltb (avg_response_time s) 5 = true
               <-> (85 <= calculate_success_rate s /\ avg_response_time s < 5)%Q).
  { rewrite andb_true_iff, Qle_bool_iff, Qltb_lt. tauto. }
  unfold assess_risk_level.
  destruct (Qle_bool 95 (calculate_success_rate s)
            && Qltb (avg_response_time s) 3) eqn:EL;
    destruct (Qle_bool 85 (calculate_success_rate s)
              && Qltb (avg_response_time s) 5) eqn:EM;
    repeat split;
    try (apply success_rate_no_pages);
    try (apply success_rate_some_pages);
    try tauto;
    try discriminate;
    try (intro; exfalso; intuition congruence);
    intuition congruence.
Qed.

(** ** Running the monad *)

Ltac run :=
  cbv beta iota delta
    [bind ret get modify logger set_log set_stats set_listings
     set_scraped_pages set_current_batch set_progress_file set_csv_file
     fst snd
     listings scraped_pages current_batch stats PROGRESS_FILE
     TOTAL_CSV_FILE disk_writable log].

Lemma bind_run {A B : Type} (m : M A) (k : A -> M B) (w : World) :
  bind m k w = k (fst (m w)) (snd (m w)).
Proof. unfold bind. destruct (m w); reflexivity. Qed.

(** ** The progress store *)

Lemma save_progress_run (p : Progress) (w : World) :
  save_progress p w =
  (tt, if disk_writable w
       then set_log (log w ++ [(INFO, ProgressSaved)])
                    (set_progress_file (ProgressJson p) w)
       else set_log (log w ++ [(ERROR, ProgressSavingError)]) w).
Proof.
  unfold save_progress. destruct w as [l n c s pf cf wr lg].
  destruct wr; reflexivity.
Qed.

(** C8. Loading the progress never fails.  With the file missing, and
    likewise with a file that cannot be read or parsed (an empty one
    included), [load_progress] returns the freshly initialised state:
    batch id 1, no page scraped today, no completed batch, today's date and
    the session's statistics.  That state is handed to [save_progress],
    whose write puts it in the file, a refused write being logged only. *)
Theorem load_progress_falls_back (now : Z) (w : World) :
  PROGRESS_FILE w = NoProgressFile \/ PROGRESS_FILE w = BadProgressFile ->
  let p := fst (load_progress now w) in
  let w' := snd (load_progress now w) in
  current_batch_id p = 1 /\
  daily_pages_scraped p = 0 /\
  completed_batches p = [] /\
  last_scrape_date p = strftime_date now /\
  session_stats p = stats w /\
  next_session_time p = None /\
  PROGRESS_FILE w' =
    (if disk_writable w then ProgressJson p else PROGRESS_FILE w) /\
  fst (load_progress now w') = p.
Proof.
  intros [H | H]; destruct w as [l n c s pf cf wr lg];
    cbv beta iota delta [PROGRESS_FILE] in H; subst pf;
    destruct wr;
    cbv beta iota zeta delta [load_progress create_initial_progress save_progress];
    run; repeat split.
Qed.

Lemma load_progress_falls_back_witness :
  let w := set_progress_file BadProgressFile fresh_world in
  (PROGRESS_FILE w = NoProgressFile \/ PROGRESS_FILE w = BadProgressFile) /\
  current_batch_id (fst (load_progress 100000 w)) = 1 /\
  daily_pages_scraped (fst (load_progress 100000 w)) = 0 /\
  completed_batches (fst (load_progress 100000 w)) = [] /\
  PROGRESS_FILE (snd (load_progress 100000 w)) =
    ProgressJson (fst (load_progress 100000 w)).
Proof.
  intro w.
  assert (H : PROGRESS_FILE w = NoProgressFile \/ PROGRESS_FILE w = BadProgressFile)
    by (right; reflexivity).
  split; [exact H|].
  destruct (load_progress_falls_back 100000 w H)
    as (H1 & H2 & H3 & _ & _ & _ & H7 & _).
  exact (conj H1 (conj H2 (conj H3 H7))).
Defined.

(** ** The dataset store *)

Lemma cell_eqb_eq (a b : Cell) : cell_eqb a b = true <-> a = b.
Proof.
  destruct a as [|s], b as [|t]; simpl; split; try congruence.
  - intro H. apply String.eqb_eq in H. now subst.
  - intro H. injection H as ->. apply String.eqb_refl.
Qed.

Lemma isin_In (c : Cell) (values : list Cell) :
  isin c values = true <-> In c values.
Proof.
  unfold isin. rewrite existsb_exists. split.
  - intros (x & Hin & Heq). apply cell_eqb_eq in Heq. now subst.
  - intro Hin. exists c. split; [assumption | now apply cell_eqb_eq].
Qed.

Lemma isin_false (c : Cell) (values : list Cell) :
  isin c values = false <-> ~ In c values.
Proof.
  rewrite <- isin_In. destruct (isin c values); split; congruence.
Qed.

Lemma drop_duplicates_incl (df : DataFrame) (row : FrameRow) :
  In row (drop_duplicates_keep_last df) -> In row df.
Proof.
  induction df as [|a df IH]; simpl; [tauto|].
  destruct (isin (url_cell a) (column df)); simpl; tauto.
Qed.

Lemma drop_duplicates_column (df : DataFrame) (c : Cell) :
  In c (column df) -> In c (column (drop_duplicates_keep_last df)).
Proof.
  induction df as [|a df IH]; simpl; [tauto|].
  intros [Ha | Hin].
  - destruct (isin (url_cell a) (column df)) eqn:E.
    + apply IH. apply isin_In in E. now subst.
    + simpl. now left.
  - destruct (isin (url_cell a) (column df)); simpl; auto.
Qed.

(** The rows of the store never survive the filter of [remove_duplicates],
    so the filter sees the batch alone. *)
Lemma filter_drop_duplicates_app (keep : FrameRow -> bool)
      (existing_df new_df : DataFrame) :
  (forall row, In (url_cell row) (column existing_df) -> keep row = false) ->
  filter keep (drop_duplicates_keep_last (existing_df ++ new_df)) =
  filter keep (drop_duplicates_keep_last new_df).
Proof.
  induction existing_df as [|a df IH]; intro Hkeep; [reflexivity|].
  simpl.
  assert (Ha : keep a = false) by (apply Hkeep; simpl; now left).
  assert (IH' : filter keep (drop_duplicates_keep_last (df ++ new_df)) =
                filter keep (drop_duplicates_keep_last new_df))
    by (apply IH; intros row Hrow; apply Hkeep; simpl; now right).
  destruct (isin (url_cell a) (column (df ++ new_df)));
    simpl; rewrite ?Ha; exact IH'.
Qed.

Lemma with_url_same (r : Listing.t) : with_url (Listing.url r) r = r.
Proof. destruct r; reflexivity. Qed.

Lemma written_row_from_listings (l : list Listing.t) :
  map written_row (from_listings l) = l.
Proof.
  induction l as [|r l IH]; [reflexivity|].
  simpl. unfold written_row at 1. simpl. now rewrite with_url_same, IH.
Qed.

(** A row let through is a row of the batch, written as the record it
    stands for. *)
Lemma fresh_rows_in (stored batch : list Listing.t) (row : FrameRow) :
  In row (fresh_rows stored batch) ->
  url_cell row = Str (Listing.url (record row)) /\
  In (record row) batch /\
  ~ In (url_cell row) (column (read_csv stored)).
Proof.
  unfold fresh_rows. rewrite filter_In, negb_true_iff, isin_false.
  intros [Hin Hcell]. apply drop_duplicates_incl in Hin.
  unfold from_listings in Hin. apply in_map_iff in Hin.
  destruct Hin as (r & <- & Hr). simpl. repeat split; assumption.
Qed.

Lemma fresh_rows_written (stored batch : list Listing.t) :
  map written_row (fresh_rows stored batch) = fresh_records stored batch.
Proof.
  unfold fresh_records. apply map_ext_in. intros row Hrow.
  apply fresh_rows_in in Hrow. destruct Hrow as (Hcell & _).
  unfold written_row. rewrite Hcell. apply with_url_same.
Qed.

Lemma fresh_records_in (stored batch : list Listing.t) (r : Listing.t) :
  In r (fresh_records stored batch) ->
  In r batch /\ ~ In (Str (Listing.url r)) (column (read_csv stored)).
Proof.
  unfold fresh_records. rewrite in_map_iff. intros (row & <- & Hrow).
  apply fresh_rows_in in Hrow. destruct Hrow as (Hcell & Hin & Hnew).
  rewrite <- Hcell. split; assumption.
Qed.

Lemma fresh_records_urls (stored batch : list Listing.t) (r : Listing.t) :
  In r batch ->
  ~ In (Str (Listing.url r)) (column (read_csv stored)) ->
  In (Listing.url r) (urls (fresh_records stored batch)).
Proof.
  intros Hin Hnew.
  assert (Hd : In (Str (Listing.url r))
                  (column (drop_duplicates_keep_last (from_listings batch)))).
  { apply drop_duplicates_column. unfold column, from_listings.
    rewrite map_map. simpl. apply in_map_iff. exists r. now split. }
  unfold column in Hd. apply in_map_iff in Hd.
  destruct Hd as (kept & Hcell & Hkept).
  assert (Hfresh : In kept (fresh_rows stored batch)).
  { unfold fresh_rows. apply filter_In. split; [exact Hkept|].
    apply negb_true_iff, isin_false. now rewrite Hcell. }
  destruct (fresh_rows_in _ _ _ Hfresh) as (Hstr & _).
  unfold urls, fresh_records. rewrite map_map. apply in_map_iff.
  exists kept. split; [|exact Hfresh]. congruence.
Qed.

Lemma fresh_records_nil (stored batch : list Listing.t) :
  (forall r, In r batch ->
             In (Str (Listing.url r)) (column (read_csv stored))) ->
  fresh_records stored batch = [].
Proof.
  intro Hall.
  destruct (fresh_records stored batch) as [|r rest] eqn:E; [reflexivity|].
  assert (Hin : In r (fresh_records stored batch)) by (rewrite E; now left).
  apply fresh_records_in in Hin. destruct Hin as [Hin Hnew].
  exfalso. apply Hnew, Hall, Hin.
Qed.

(** A url kept as text is none of the missing values. *)
Lemma kept_as_text_not_na (u : string) :
  kept_as_text u = true -> is_na u = false.
Proof.
  destruct u as [|c rest]; [discriminate|].
  unfold kept_as_text. intro H. apply existsb_exists in H.
  destruct H as (x & Hin & Heq). apply Ascii.eqb_eq in Heq. subst x.
  unfold text_initials in Hin. cbn [list_ascii_of_string] in Hin.
  repeat (destruct Hin as [<- | Hin]; [reflexivity|]).
  destruct Hin.
Qed.

(** The values read from the store are its urls, but for those read as
    missing. *)
Lemma read_column_In (stored : list Listing.t) (u : string) :
  In (Str u) (column (read_csv stored)) <->
  In u (urls stored) /\ is_na u = false.
Proof.
  unfold column, read_csv, urls. rewrite map_map. simpl.
  rewrite !in_map_iff. unfold read_cell. split.
  - intros (r & Hcell & Hr). destruct (is_na (Listing.url r)) eqn:E;
      [discriminate|].
    injection Hcell as <-. split; [exists r; now split | exact E].
  - intros [(r & <- & Hr) Hna]. exists r. rewrite Hna. now split.
Qed.

Lemma remove_duplicates_run (batch stored : list Listing.t) (w : World) :
  stored <> [] ->
  remove_duplicates (from_listings batch) (read_csv stored) w =
  (fresh_rows stored batch,
   set_log (log w ++ [(INFO, DuplicateCheck (len (from_listings batch))
                               (len (fresh_rows stored batch)))]) w).
Proof.
  intro Hne. unfold remove_duplicates.
  destruct stored as [|a rows]; [contradiction|].
  cbn [read_csv map empty].
  rewrite (filter_drop_duplicates_app _ _ (from_listings batch)).
  - reflexivity.
  - intros row Hrow. apply negb_false_iff, isin_In. exact Hrow.
Qed.

(** The dataset file after a merge. *)
Lemma merge_csv_file (batch : list Listing.t) (w : World) :
  TOTAL_CSV_FILE (merge batch w) =
  let f := TOTAL_CSV_FILE w in
  match batch with
  | [] => f
  | _ :: _ =>
      if negb (disk_writable w) then f
      else
        match stored_rows f with
        | [] => CsvRows batch
        | _ :: _ =>
            match fresh_records (stored_rows f) batch with
            | [] => f
            | _ :: _ =>
                CsvRows (stored_rows f ++ fresh_records (stored_rows f) batch)
            end
        end
  end.
Proof.
  unfold merge, save_batch_data.
  destruct batch as [|r batch]; [reflexivity|].
  destruct w as [l n c s pf cf wr lg].
  pose proof (written_row_from_listings (r :: batch)) as Hall.
  cbn -[written_row] in Hall.
  destruct cf as [| |[|a rows]].
  - destruct wr; cbn -[written_row]; rewrite ?Hall; reflexivity.
  - destruct wr; cbn -[written_row]; rewrite ?Hall; reflexivity.
  - destruct wr; cbn -[written_row]; rewrite ?Hall; reflexivity.
  - cbn -[remove_duplicates fresh_records from_listings read_csv written_row].
    rewrite bind_run, remove_duplicates_run by discriminate.
    cbn -[fresh_records fresh_rows from_listings read_csv written_row].
    rewrite <- fresh_rows_written.
    destruct (fresh_rows (a :: rows) (r :: batch)) as [|x xs] eqn:E.
    + destruct wr; reflexivity.
    + destruct wr; reflexivity.
Qed.

Lemma merge_disk_writable (batch : list Listing.t) (w : World) :
  disk_writable (merge batch w) = disk_writable w.
Proof.
  unfold merge, save_batch_data.
  destruct batch as [|r batch]; [reflexivity|].
  destruct w as [l n c s pf cf wr lg].
  destruct cf as [| |[|a rows]]; [destruct wr; reflexivity .. |].
  cbn -[remove_duplicates fresh_records from_listings read_csv written_row].
  rewrite bind_run, remove_duplicates_run by discriminate.
  cbn -[fresh_records fresh_rows from_listings read_csv written_row].
  destruct (fresh_rows (a :: rows) (r :: batch)); destruct wr; reflexivity.
Qed.

(** Merging twice is merging once for a batch all of whose urls are kept
    as text. *)
Lemma merge_idempotent_text_urls (batch : list Listing.t) (w : World) :
  (forall r, In r batch -> kept_as_text (Listing.url r) = true) ->
  TOTAL_CSV_FILE (merge batch (merge batch w)) =
  TOTAL_CSV_FILE (merge batch w).
Proof.
  intro Hkept.
  assert (Htext : forall r, In r batch -> is_na (Listing.url r) = false)
    by (intros r Hr; apply kept_as_text_not_na, Hkept, Hr).
  clear Hkept.
  rewrite (merge_csv_file batch (merge batch w)).
  rewrite merge_disk_writable.
  rewrite (merge_csv_file batch w).
  cbv zeta.
  destruct batch as [|b0 batch']; [reflexivity|].
  set (batch := b0 :: batch') in *.
  destruct (disk_writable w); [|reflexivity].
  cbv beta iota delta [negb].
  set (old := stored_rows (TOTAL_CSV_FILE w)).
  assert (Hcover : forall stored,
             (forall r, In r batch -> In (Listing.url r) (urls stored)) ->
             fresh_records stored batch = []).
  { intros stored Hin. apply fresh_records_nil. intros r Hr.
    apply read_column_In. split; [now apply Hin | now apply Htext]. }
  destruct old as [|o old'] eqn:Eo.
  - (* first write: the file now holds the batch *)
    cbv beta iota delta [stored_rows]. unfold batch at 1.
    rewrite Hcover; [reflexivity|].
    intros r Hr. unfold urls. now apply in_map.
  - destruct (fresh_records (o :: old') batch) as [|f fs] eqn:Ef.
    + fold old. rewrite Eo, Ef. reflexivity.
    + cbv beta iota delta [stored_rows]. cbn [app].
      rewrite (Hcover (o :: old' ++ f :: fs)); [reflexivity|].
      intros r Hr. change (o :: old' ++ f :: fs) with ((o :: old') ++ f :: fs).
      unfold urls. rewrite map_app. apply in_or_app.
      destruct (in_dec string_dec (Listing.url r) (urls (o :: old')))
        as [Hi | Hn]; [left; exact Hi | right].
      rewrite <- Ef. apply fresh_records_urls; [exact Hr|].
      intro Hc. apply read_column_In in Hc. apply Hn, Hc.
Qed.

(** C9 fails on the code.  A row without a title link yields a record of
    url "N/A".  Merged into an absent store it is written; merged again it
    is written a second time, because [pd.read_csv] reads the stored "N/A"
    as a missing value, which the url of the batch does not match. *)
Theorem merge_twice_adds_missing_url_again :
  urls untitled_listings = ["N/A"%string] /\
  stored_rows (TOTAL_CSV_FILE (merge untitled_listings fresh_world)) =
    untitled_listings /\
  stored_rows (TOTAL_CSV_FILE
                 (merge untitled_listings
                        (merge untitled_listings fresh_world))) =
    untitled_listings ++ untitled_listings /\
  TOTAL_CSV_FILE (merge untitled_listings
                        (merge untitled_listings fresh_world)) <>
  TOTAL_CSV_FILE (merge untitled_listings fresh_world).
Proof.
  repeat split; try (vm_compute; reflexivity).
  vm_compute. discriminate.
Qed.

(** C1, the amended claim.  A merge never replaces a stored record.  When
    the store holds rows, they stay, in place and unchanged, and what is
    added below them are records of the batch; a record of the batch whose
    url occurs in the store is dropped when the url is one that is read
    back as text.  When the write goes through, every url of the batch
    that is new to the store, and is not one that is read back as a missing
    value, is added. *)
Theorem merge_keeps_stored_records (batch : list Listing.t) (w : World) :
  let old := stored_rows (TOTAL_CSV_FILE w) in
  old <> [] ->
  exists added,
    TOTAL_CSV_FILE (merge batch w) = CsvRows (old ++ added) /\
    (forall r, In r added -> In r batch) /\
    (forall r, In r added -> kept_as_text (Listing.url r) = true ->
               ~ In (Listing.url r) (urls old)) /\
    (disk_writable w = true ->
     forall r, In r batch -> is_na (Listing.url r) = false ->
               ~ In (Listing.url r) (urls old) ->
               In (Listing.url r) (urls added)).
Proof.
  cbv zeta. rewrite merge_csv_file. cbv zeta.
  remember (stored_rows (TOTAL_CSV_FILE w)) as old eqn:Hold.
  intro Hne.
  assert (Hf : TOTAL_CSV_FILE w = CsvRows old).
  { destruct (TOTAL_CSV_FILE w); simpl in Hold; congruence. }
  destruct old as [|o old']; [contradiction|].
  destruct batch as [|b0 batch'].
  { exists []. rewrite app_nil_r.
    repeat split; try assumption; intros; contradiction. }
  set (batch := b0 :: batch') in *.
  set (old := o :: old') in *.
  assert (Hdropped : forall r, In r (fresh_records old batch) ->
                               kept_as_text (Listing.url r) = true ->
                               ~ In (Listing.url r) (urls old)).
  { intros r Hr Hkept Hin. apply fresh_records_in in Hr.
    destruct Hr as [_ Hnew]. apply Hnew, read_column_In.
    split; [exact Hin | now apply kept_as_text_not_na]. }
  destruct (disk_writable w) eqn:Ew; cbv beta iota delta [negb].
  - exists (fresh_records old batch). split; [|split; [|split]].
    + destruct (fresh_records old batch) as [|f fs] eqn:Ef; [|reflexivity].
      rewrite app_nil_r. exact Hf.
    + intros r Hr. now apply fresh_records_in in Hr.
    + exact Hdropped.
    + intros _ r Hin Hna Hnew. apply fresh_records_urls; [exact Hin|].
      intro Hc. apply read_column_In in Hc. apply Hnew, Hc.
  - exists []. rewrite app_nil_r.
    repeat split; try assumption; try contradiction. discriminate.
Qed.

(** Scenario D on the code: the second merge meets a store that holds the
    record of the first; the url "a" is read back as text, so the record
    of price 120 is dropped and the file is left as it was. *)
Lemma merge_keeps_stored_records_witness :
  let w := merge [listing "a" "100"] fresh_world in
  stored_rows (TOTAL_CSV_FILE w) <> [] /\
  kept_as_text "a" = true /\
  TOTAL_CSV_FILE (merge [listing "a" "120"] w) = CsvRows [listing "a" "100"].
Proof.
  intro w.
  assert (H : stored_rows (TOTAL_CSV_FILE w) <> []) by (vm_compute; discriminate).
  split; [exact H|]. split; [reflexivity|].
  destruct (merge_keeps_stored_records [listing "a" "120"] w H)
    as (added & Hfile & Hbatch & Hadded & _).
  rewrite Hfile.
  destruct added as [|r rest]; [reflexivity|].
  exfalso.
  assert (Hr : r = listing "a" "120").
  { destruct (Hbatch r (or_introl eq_refl)) as [<- | []]. reflexivity. }
  apply (Hadded r (or_introl eq_refl)); rewrite Hr; [reflexivity|].
  left. reflexivity.
Defined.

(** C1 as stated fails on scenario D: after merging the record of url "a"
    with price 100 and then the one with price 120, the store holds the
    single record with price 100, so no record of url "a" carries 120. *)
Lemma merge_keep_last_counterexample :
  let w := merge [listing "a" "120"] (merge [listing "a" "100"] fresh_world) in
  TOTAL_CSV_FILE w = CsvRows [listing "a" "100"] /\
  ~ (exists row, In row (stored_rows (TOTAL_CSV_FILE w)) /\
                 Listing.url row = "a"%string /\
                 Listing.price row = "120"%string).
Proof.
  intro w. split; [reflexivity|].
  intros (row & Hin & _ & Hprice).
  vm_compute in Hin. destruct Hin as [Heq | []].
  subst row. discriminate Hprice.
Qed.

(** ** Scraping one page *)

Lemma process_listings_run (rows : list Row.t) (i page_num : Z) (w : World) :
  process_listings rows i page_num w =
  (extracted rows i page_num,
   set_log (log w ++ extraction_warnings rows i page_num) w).
Proof.
  revert i w. induction rows as [|row rest IH]; intros i w.
  - destruct w; cbn. now rewrite app_nil_r.
  - cbn [process_listings extracted extraction_warnings].
    unfold extract_listing_data.
    destruct (extract_fields row (i + 1) page_num) as [d|].
    + rewrite bind_run. cbn [ret fst snd]. rewrite bind_run, IH. reflexivity.
    + rewrite bind_run. rewrite (bind_run (logger _ _)).
      cbn [ret fst snd logger modify]. rewrite bind_run, IH.
      destruct w; cbn. now rewrite <- app_assoc.
Qed.

Lemma scrape_page_exception (fetch : Z -> PageOutcome) (page_num : Z)
      (w : World) :
  fetch page_num = PageException ->
  scrape_page fetch page_num w =
  (false,
   set_stats (add_failed_page (stats w))
     (set_log (log w ++ [(INFO, ScrapingPage page_num);
                         (ERROR, PageScrapingError page_num)]) w)).
Proof.
  intro H. unfold scrape_page. rewrite H.
  destruct w; cbn. now rewrite <- app_assoc.
Qed.

Lemma scrape_page_no_rows (fetch : Z -> PageOutcome) (page_num : Z)
      (response_time : Q) (w : World) :
  fetch page_num = PageRows [] response_time ->
  scrape_page fetch page_num w =
  (false,
   set_stats (add_failed_page (stats w))
     (set_log (log w ++ [(INFO, ScrapingPage page_num);
                         (WARNING, NoListingsFound page_num)]) w)).
Proof.
  intro H. unfold scrape_page. rewrite H.
  destruct w; cbn. now rewrite <- app_assoc.
Qed.

Lemma scrape_page_rows (fetch : Z -> PageOutcome) (page_num : Z)
      (row : Row.t) (rest : list Row.t) (response_time : Q) (w : World) :
  fetch page_num = PageRows (row :: rest) response_time ->
  let page_listings := extracted (row :: rest) 0 page_num in
  scrape_page fetch page_num w =
  (true,
   set_stats (add_successful_page (len page_listings) response_time (stats w))
     (set_scraped_pages (scraped_pages w + 1)
        (set_listings (listings w ++ page_listings)
           (set_log (log w ++ [(INFO, ScrapingPage page_num)]
                           ++ extraction_warnings (row :: rest) 0 page_num
                           ++ [(INFO, PageListingsScraped page_num
                                        (len page_listings))]) w)))).
Proof.
  intros H page_listings. unfold scrape_page. rewrite H.
  rewrite bind_run. cbn [logger modify fst snd].
  rewrite bind_run, process_listings_run. fold page_listings.
  destruct w; cbn -[page_listings add_successful_page].
  now rewrite <- !app_assoc.
Qed.

(** C4, the amended claim.  A page that loads without an exception but
    holds no row is logged at warning level and yet counted as failed:
    [scrape_page] returns [False], [failed_pages] grows by one and
    [successful_pages] stays.  A page with at least one row counts as
    successful, even when none of its rows yields a record. *)
Theorem scrape_page_empty_page_fails (fetch : Z -> PageOutcome) (page_num : Z)
        (rows : list Row.t) (response_time : Q) (w : World) :
  fetch page_num = PageRows rows response_time ->
  let result := fst (scrape_page fetch page_num w) in
  let w' := snd (scrape_page fetch page_num w) in
  (rows = [] ->
   result = false /\
   failed_pages (stats w') = failed_pages (stats w) + 1 /\
   successful_pages (stats w') = successful_pages (stats w) /\
   listings w' = listings w /\
   log w' = log w ++ [(INFO, ScrapingPage page_num);
                      (WARNING, NoListingsFound page_num)]) /\
  (rows <> [] ->
   result = true /\
   failed_pages (stats w') = failed_pages (stats w) /\
   successful_pages (stats w') = successful_pages (stats w) + 1 /\
   listings w' = listings w ++ extracted rows 0 page_num).
Proof.
  intros H. cbv zeta. split; intro Hrows.
  - subst rows. rewrite (scrape_page_no_rows _ _ _ _ H).
    destruct w; cbn. repeat split.
  - destruct rows as [|row rest]; [contradiction|].
    rewrite (scrape_page_rows _ _ _ _ _ _ H).
    destruct w; cbn -[extracted]. repeat split.
Qed.

Lemma scrape_page_empty_page_fails_witness :
  let fetch := fun _ : Z => PageRows [] 2 in
  let w' := snd (scrape_page fetch 51 fresh_world) in
  fetch 51 = PageRows [] 2 /\
  fst (scrape_page fetch 51 fresh_world) = false /\
  failed_pages (stats w') = failed_pages (stats fresh_world) + 1 /\
  successful_pages (stats w') = successful_pages (stats fresh_world).
Proof.
  intros fetch w'.
  assert (H : fetch 51 = PageRows [] 2) by reflexivity.
  split; [exact H|].
  destruct (scrape_page_empty_page_fails fetch 51 [] 2 fresh_world H)
    as [Hempty _].
  destruct (Hempty eq_refl) as (H1 & H2 & H3 & _).
  exact (conj H1 (conj H2 H3)).
Defined.

(** C4 as stated fails: on a fresh session, a page that loads and holds no
    row raises [failed_pages] from 0 to 1, brings the success rate from 100
    down to 0 and the assessed risk from LOW to HIGH. *)
Lemma empty_page_counterexample :
  let fetch := fun _ : Z => PageRows [] 2 in
  let w' := snd (scrape_page fetch 51 fresh_world) in
  failed_pages (stats fresh_world) = 0 /\
  failed_pages (stats w') = 1 /\
  (calculate_success_rate (stats fresh_world) == 100)%Q /\
  (calculate_success_rate (stats w') == 0)%Q /\
  assess_risk_level (stats fresh_world) = LOW /\
  assess_risk_level (stats w') = HIGH.
Proof.
  cbv zeta. repeat split; vm_compute; reflexivity.
Qed.

(** ** The pages of a batch *)

Lemma range_length (a b : Z) : len (range a b) = Z.max 0 (b - a).
Proof.
  unfold len, range. rewrite length_map, length_seq. lia.
Qed.

Lemma range_In (a b p : Z) : In p (range a b) <-> a <= p < b.
Proof.
  unfold range. rewrite in_map_iff. split.
  - intros (i & Hp & Hi). apply in_seq in Hi. lia.
  - intro H. exists (Z.to_nat (p - a)). split; [lia|].
    apply in_seq. lia.
Qed.

Lemma range_nth (a b : Z) (i : nat) :
  (i < Z.to_nat (b - a))%nat -> nth i (range a b) 0 = a + Z.of_nat i.
Proof.
  intro H. unfold range.
  rewrite (nth_indep _ 0 (a + Z.of_nat 0)) by (rewrite length_map, length_seq; exact H).
  rewrite (map_nth (fun i => a + Z.of_nat i)), seq_nth by exact H.
  reflexivity.
Qed.

Lemma visited_app (l1 l2 : list LogRecord) :
  visited (l1 ++ l2) = visited l1 ++ visited l2.
Proof.
  induction l1 as [|[lvl msg] l1 IH]; [reflexivity|].
  destruct msg; simpl; rewrite IH; reflexivity.
Qed.

Lemma visited_extraction_warnings (rows : list Row.t) (i page_num : Z) :
  visited (extraction_warnings rows i page_num) = [].
Proof.
  revert i. induction rows as [|row rest IH]; intro i; [reflexivity|].
  simpl. destruct (extract_fields row (i + 1) page_num); simpl; apply IH.
Qed.

(** What one turn of the loop of [run_batch] does to the world. *)
Lemma batch_page_effect (fetch : Z -> PageOutcome) (batch_info : Batch.t)
      (page : Z) (w : World) :
  let w' := snd (batch_page fetch batch_info page w) in
  PROGRESS_FILE w' = PROGRESS_FILE w /\
  TOTAL_CSV_FILE w' = TOTAL_CSV_FILE w /\
  disk_writable w' = disk_writable w /\
  failed_pages (stats w') =
    failed_pages (stats w) + (if page_fails (fetch page) then 1 else 0) /\
  successful_pages (stats w') =
    successful_pages (stats w) + (if page_fails (fetch page) then 0 else 1) /\
  visited (log w') = visited (log w) ++ [page].
Proof.
  cbv zeta. unfold batch_page. rewrite bind_run.
  destruct (fetch page) as [|[|row rest] response_time] eqn:E.
  - rewrite (scrape_page_exception _ _ _ E).
    destruct w as [l n c s pf cf wr lg].
    destruct (page <? Batch.end_ batch_info); cbn;
      rewrite ?visited_app; cbn; rewrite ?app_nil_r;
      repeat split; lia.
  - rewrite (scrape_page_no_rows _ _ _ _ E).
    destruct w as [l n c s pf cf wr lg].
    destruct (page <? Batch.end_ batch_info); cbn;
      rewrite ?visited_app; cbn; rewrite ?app_nil_r;
      repeat split; lia.
  - rewrite (scrape_page_rows _ _ _ _ _ _ E).
    destruct w as [l n c s pf cf wr lg].
    destruct (page <? Batch.end_ batch_info);
      cbn -[extracted extraction_warnings];
      rewrite ?visited_app; cbn -[extracted extraction_warnings];
      rewrite ?visited_app, ?visited_extraction_warnings; cbn;
      rewrite ?app_nil_r; repeat split; lia.
Qed.

(** The same for the whole loop, over any list of pages. *)
Lemma batch_pages_effect (fetch : Z -> PageOutcome) (batch_info : Batch.t)
      (pages : list Z) (w : World) :
  let w' := snd (for_each pages (batch_page fetch batch_info) w) in
  PROGRESS_FILE w' = PROGRESS_FILE w /\
  TOTAL_CSV_FILE w' = TOTAL_CSV_FILE w /\
  disk_writable w' = disk_writable w /\
  failed_pages (stats w') =
    failed_pages (stats w)
    + len (filter (fun p => page_fails (fetch p)) pages) /\
  successful_pages (stats w') =
    successful_pages (stats w)
    + len (filter (fun p => negb (page_fails (fetch p))) pages) /\
  visited (log w') = visited (log w) ++ pages.
Proof.
  cbv zeta. revert w. induction pages as [|page rest IH]; intro w.
  - cbn. rewrite app_nil_r. repeat split; lia.
  - cbn [for_each]. rewrite bind_run.
    destruct (batch_page_effect fetch batch_info page w)
      as (H1 & H2 & H3 & H4 & H5 & H6).
    destruct (IH (snd (batch_page fetch batch_info page w)))
      as (I1 & I2 & I3 & I4 & I5 & I6).
    rewrite I1, I2, I3, I4, I5, I6, H1, H2, H3, H4, H5, H6.
    cbn [filter]. unfold len.
    destruct (page_fails (fetch page)); cbn [negb Datatypes.length];
      rewrite <- app_assoc; repeat split; try reflexivity; lia.
Qed.

Lemma save_batch_data_effect (w : World) :
  let w' := snd (save_batch_data w) in
  PROGRESS_FILE w' = PROGRESS_FILE w /\
  disk_writable w' = disk_writable w /\
  stats w' = stats w /\
  listings w' = listings w /\
  visited (log w') = visited (log w).
Proof.
  cbv zeta. unfold save_batch_data.
  destruct w as [l n c s pf cf wr lg].
  destruct l as [|r batch]; [cbn; repeat split|].
  destruct cf as [| |[|a rows]];
    [ destruct wr; cbn; rewrite ?visited_app; cbn; rewrite ?app_nil_r;
      repeat split .. | ].
  cbn -[remove_duplicates fresh_records from_listings read_csv written_row].
  rewrite bind_run, remove_duplicates_run by discriminate.
  cbn -[fresh_records fresh_rows from_listings read_csv written_row].
  destruct (fresh_rows (a :: rows) (r :: batch)); destruct wr;
    cbn -[from_listings read_csv written_row];
    rewrite ?visited_app; cbn -[from_listings read_csv written_row];
    rewrite ?app_nil_r; repeat split.
Qed.

Lemma load_progress_effect (now : Z) (w : World) :
  let p := fst (load_progress now w) in
  let w' := snd (load_progress now w) in
  stats w' = stats w /\
  listings w' = listings w /\
  disk_writable w' = disk_writable w /\
  TOTAL_CSV_FILE w' = TOTAL_CSV_FILE w /\
  visited (log w') = visited (log w) /\
  current_batch_id p = stored_batch_id (PROGRESS_FILE w) /\
  completed_batches p = stored_completed (PROGRESS_FILE w) /\
  daily_pages_scraped p = stored_daily_pages (PROGRESS_FILE w) /\
  (forall q, PROGRESS_FILE w = ProgressJson q -> p = q) /\
  (disk_writable w = true -> PROGRESS_FILE w' = ProgressJson p).
Proof.
  cbv zeta. unfold load_progress, create_initial_progress, save_progress.
  destruct w as [l n c s pf cf wr lg].
  destruct pf as [| |q]; destruct wr; cbn -[strftime_date];
    rewrite ?visited_app; cbn -[strftime_date]; rewrite ?app_nil_r;
    repeat split; congruence.
Qed.
Lemma run_batch_effect (fetch : Z -> PageOutcome) (batch_info : Batch.t)
      (now : Z) (w : World) :
  let pages := range (Batch.start batch_info) (Batch.end_ batch_info + 1) in
  let w' := snd (run_batch fetch batch_info now w) in
  fst (run_batch fetch batch_info now w) = true /\
  (disk_writable w = true ->
   exists p c,
      PROGRESS_FILE w' = ProgressJson p /\
      current_batch_id p = Batch.id batch_info + 1 /\
      completed_batches p = stored_completed (PROGRESS_FILE w) ++ [c] /\
      Completed.id c = Batch.id batch_info /\
      Completed.date c = strftime_date now /\
      Completed.pages_scraped c = len pages /\
      daily_pages_scraped p = stored_daily_pages (PROGRESS_FILE w) + len pages /\
      (forall q, PROGRESS_FILE w = ProgressJson q ->
                 last_scrape_date p = last_scrape_date q)) /\
  failed_pages (stats w') =
    failed_pages (stats w)
    + len (filter (fun p => page_fails (fetch p)) pages) /\
  successful_pages (stats w') =
    successful_pages (stats w)
    + len (filter (fun p => negb (page_fails (fetch p))) pages) /\
  visited (log w') = visited (log w) ++ pages.
Proof.
  intros pages. cbv zeta. unfold run_batch. fold pages.
  repeat (rewrite bind_run; cbv beta).
  cbn [logger modify fst snd ret].
  set (w0 := set_listings [] _).
  set (w1 := snd (for_each pages (batch_page fetch batch_info) w0)).
  set (w2 := snd (save_batch_data w1)).
  unfold get. cbn [fst snd].
  set (p3 := fst (load_progress now w2)).
  set (w3 := snd (load_progress now w2)).
  rewrite save_progress_run.
  destruct (batch_pages_effect fetch batch_info pages w0)
    as (A1 & A2 & A3 & A4 & A5 & A6). fold w1 in A1, A2, A3, A4, A5, A6.
  destruct (save_batch_data_effect w1) as (B1 & B2 & B3 & B4 & B5).
  fold w2 in B1, B2, B3, B4, B5.
  destruct (load_progress_effect now w2)
    as (C1 & C2 & C3 & C4 & C5 & C6 & C7 & C8 & C9 & C10).
  fold p3 in C6, C7, C8, C9. fold w3 in C1, C2, C3, C4, C5, C10.
  assert (Hw0 : disk_writable w0 = disk_writable w) by (destruct w; reflexivity).
  assert (Hf0 : PROGRESS_FILE w0 = PROGRESS_FILE w) by (destruct w; reflexivity).
  assert (Hs0 : stats w0 = stats w) by (destruct w; reflexivity).
  assert (Hv0 : visited (log w0) = visited (log w)).
  { destruct w; cbn. rewrite visited_app. cbn. now rewrite app_nil_r. }
  assert (Hw3 : disk_writable w3 = disk_writable w) by congruence.
  assert (Hf2 : PROGRESS_FILE w2 = PROGRESS_FILE w) by congruence.
  rewrite Hf2 in C6, C7, C8, C9.
  rewrite Hw3.
  split; [reflexivity|]. split; [|split; [|split]].
  - intro Hw. rewrite Hw.
    cbn [fst snd set_log set_progress_file PROGRESS_FILE].
    eexists. eexists. split; [reflexivity|].
    cbn [current_batch_id completed_batches daily_pages_scraped
         last_scrape_date Completed.id Completed.date Completed.pages_scraped].
    rewrite C7, C8. repeat split.
    intros q Hq. now rewrite (C9 q Hq).
  - destruct (disk_writable w);
      cbn [fst snd set_log set_progress_file stats];
      rewrite C1, B3, A4, Hs0; reflexivity.
  - destruct (disk_writable w);
      cbn [fst snd set_log set_progress_file stats];
      rewrite C1, B3, A5, Hs0; reflexivity.
  - destruct (disk_writable w);
      cbn [fst snd set_log set_progress_file log];
      rewrite !visited_app; cbn [visited]; rewrite !app_nil_r;
      rewrite C5, B5, A6, Hv0; reflexivity.
Qed.

(** ** Running a batch *)

(** C6. A failed page never aborts the batch.  For every batch with
    [start <= end] and every fetcher, [run_batch] returns [True] after
    calling [scrape_page] on the pages [start], [start + 1], ..., [end], in
    that order and once each; every page is counted as failed or as
    successful; and with a disk that takes the write the stored batch id is
    the batch's id plus one.  For the batch of pages 51 to 60 with id 1 and
    a fetcher that fails on page 55 only, [failed_pages] grows by 1,
    [successful_pages] by 9 and the stored batch id is 2. *)
Theorem run_batch_never_aborts (fetch : Z -> PageOutcome)
        (batch_info : Batch.t) (now : Z) (w : World) :
  Batch.start batch_info <= Batch.end_ batch_info ->
  let pages := range (Batch.start batch_info) (Batch.end_ batch_info + 1) in
  let w' := snd (run_batch fetch batch_info now w) in
  fst (run_batch fetch batch_info now w) = true /\
  visited (log w') = visited (log w) ++ pages /\
  len pages = Batch.end_ batch_info - Batch.start batch_info + 1 /\
  (forall i, (i < List.length pages)%nat ->
             nth i pages 0 = Batch.start batch_info + Z.of_nat i) /\
  (failed_pages (stats w') - failed_pages (stats w))
  + (successful_pages (stats w') - successful_pages (stats w)) = len pages /\
  (disk_writable w = true ->
   stored_batch_id (PROGRESS_FILE w') = Batch.id batch_info + 1) /\
  (Batch.id batch_info = 1 ->
   Batch.start batch_info = 51 ->
   Batch.end_ batch_info = 60 ->
   (forall p, 51 <= p <= 60 -> page_fails (fetch p) = (p =? 55)) ->
   failed_pages (stats w') = failed_pages (stats w) + 1 /\
   successful_pages (stats w') = successful_pages (stats w) + 9 /\
   (disk_writable w = true -> stored_batch_id (PROGRESS_FILE w') = 2)).
Proof.
  intros Hle pages w'.
  destruct (run_batch_effect fetch batch_info now w)
    as (Hret & Hfile & Hfailed & Hok & Hvisited).
  fold pages in Hfile, Hfailed, Hok, Hvisited.
  fold w' in Hfile, Hfailed, Hok, Hvisited.
  assert (Hlen : len pages = Batch.end_ batch_info - Batch.start batch_info + 1).
  { unfold pages. rewrite range_length. lia. }
  assert (Hid : disk_writable w = true ->
                stored_batch_id (PROGRESS_FILE w') = Batch.id batch_info + 1).
  { intro Hw. destruct (Hfile Hw) as (p & c & Hp & Hb & _).
    rewrite Hp. exact Hb. }
  split; [exact Hret|]. split; [exact Hvisited|]. split; [exact Hlen|].
  split; [|split; [|split; [exact Hid|]]].
  - intros i Hi. unfold pages. apply range_nth.
    unfold pages, range in Hi. now rewrite length_map, length_seq in Hi.
  - rewrite Hfailed, Hok. unfold len.
    assert (Hsplit : forall (f : Z -> bool) (l : list Z),
               (List.length (filter f l)
                + List.length (filter (fun p => negb (f p)) l))%nat
               = List.length l).
    { intros f l. induction l as [|x l IH]; [reflexivity|].
      simpl. destruct (f x); simpl; lia. }
    specialize (Hsplit (fun p => page_fails (fetch p)) pages). lia.
  - intros H1 H51 H60 Hfetch.
    assert (Hpages : pages = [51; 52; 53; 54; 55; 56; 57; 58; 59; 60]).
    { unfold pages. rewrite H51, H60. reflexivity. }
    rewrite Hfailed, Hok, Hpages. cbn [filter].
    rewrite !Hfetch by lia. cbn.
    repeat split. intro Hw. rewrite (Hid Hw), H1. reflexivity.
Qed.

(** Scenario B on the code, in a session that has just started. *)
Lemma run_batch_never_aborts_witness :
  let w' := snd (run_batch fails_on_55 batch_1 100000 fresh_world) in
  Batch.start batch_1 <= Batch.end_ batch_1 /\
  fst (run_batch fails_on_55 batch_1 100000 fresh_world) = true /\
  visited (log w') = [51; 52; 53; 54; 55; 56; 57; 58; 59; 60] /\
  failed_pages (stats w') = 1 /\
  successful_pages (stats w') = 9 /\
  stored_batch_id (PROGRESS_FILE w') = 2.
Proof.
  intro w'.
  assert (Hle : Batch.start batch_1 <= Batch.end_ batch_1) by (cbn; lia).
  split; [exact Hle|].
  destruct (run_batch_never_aborts fails_on_55 batch_1 100000 fresh_world Hle)
    as (Hret & Hvisited & _ & _ & _ & _ & Hscenario).
  assert (Hfetch : forall p, 51 <= p <= 60 ->
                             page_fails (fails_on_55 p) = (p =? 55)).
  { intros p _. unfold fails_on_55. destruct (p =? 55); reflexivity. }
  destruct (Hscenario eq_refl eq_refl eq_refl Hfetch) as (Hf & Hs & Hid).
  split; [exact Hret|]. split; [exact Hvisited|].
  split; [exact Hf|]. split; [exact Hs|]. exact (Hid eq_refl).
Defined.

(** C2, the amended claim.  [run_batch] never resets the day's count.  For
    every persisted progress state, whatever its [last_scrape_date], the
    batch adds its page range [end - start + 1] to the stored
    [daily_pages_scraped] and leaves [last_scrape_date] as it was. *)
Theorem run_batch_adds_without_reset (fetch : Z -> PageOutcome)
        (batch_info : Batch.t) (now : Z) (w : World) (stored : Progress) :
  PROGRESS_FILE w = ProgressJson stored ->
  disk_writable w = true ->
  Batch.start batch_info <= Batch.end_ batch_info ->
  let w' := snd (run_batch fetch batch_info now w) in
  exists p,
    PROGRESS_FILE w' = ProgressJson p /\
    daily_pages_scraped p =
      daily_pages_scraped stored
      + (Batch.end_ batch_info - Batch.start batch_info + 1) /\
    last_scrape_date p = last_scrape_date stored.
Proof.
  intros Hstored Hw Hle w'.
  destruct (run_batch_effect fetch batch_info now w) as (_ & Hfile & _).
  fold w' in Hfile.
  destruct (Hfile Hw) as (p & c & Hp & _ & _ & _ & _ & _ & Hd & Hlast).
  exists p. split; [exact Hp|]. split.
  - rewrite Hd, Hstored, range_length. cbn [stored_daily_pages]. lia.
  - exact (Hlast stored Hstored).
Qed.

Lemma run_batch_adds_without_reset_witness :
  let w := set_progress_file (ProgressJson progress_of_yesterday) fresh_world in
  let w' := snd (run_batch fails_on_55 batch_1 100000 w) in
  PROGRESS_FILE w = ProgressJson progress_of_yesterday /\
  disk_writable w = true /\
  Batch.start batch_1 <= Batch.end_ batch_1 /\
  exists p,
    PROGRESS_FILE w' = ProgressJson p /\
    daily_pages_scraped p = 50 + (60 - 51 + 1) /\
    last_scrape_date p = 0.
Proof.
  intros w w'.
  assert (Hle : Batch.start batch_1 <= Batch.end_ batch_1) by (cbn; lia).
  split; [reflexivity|]. split; [reflexivity|]. split; [exact Hle|].
  exact (run_batch_adds_without_reset fails_on_55 batch_1 100000 w
           progress_of_yesterday eq_refl eq_refl Hle).
Defined.

(** C2 as stated fails: the stored state is of day 0 with 50 pages, the
    batch of pages 51 to 60 completes on day 1, and the stored count
    becomes 60 where a reset would leave the 10 pages of the batch. *)
Lemma daily_reset_counterexample :
  let w := set_progress_file (ProgressJson progress_of_yesterday) fresh_world in
  let w' := snd (run_batch fails_on_55 batch_1 100000 w) in
  last_scrape_date progress_of_yesterday < strftime_date 100000 /\
  stored_daily_pages (PROGRESS_FILE w') = 60 /\
  stored_daily_pages (PROGRESS_FILE w') <>
    Batch.end_ batch_1 - Batch.start batch_1 + 1.
Proof.
  cbv zeta. split; [vm_compute; reflexivity|].
  split; [vm_compute; reflexivity|].
  vm_compute. discriminate.
Qed.

(** ** Breaks *)

Lemma uniform_between (a b r : Q) :
  is_draw r -> (a <= b)%Q -> (a <= uniform a b r <= b)%Q.
Proof.
  unfold is_draw, uniform. intros [H0 H1] Hab. split; nra.
Qed.

Lemma uniform_between_reversed (a b r : Q) :
  is_draw r -> (b <= a)%Q -> (b <= uniform a b r <= a)%Q.
Proof.
  unfold is_draw, uniform. intros [H0 H1] Hab. split; nra.
Qed.

(** Where the bounds of C7 hold: at LOW and at MEDIUM risk for every
    rules and draw, and at HIGH risk under rules whose maximum is not below
    their minimum plus 60. *)
Lemma calculate_optimal_break_within (rules : Rules) (r : Q) (w : World) :
  is_draw r ->
  let break := fst (calculate_optimal_break rules r w) in
  let base := inject_Z (min_break_minutes rules) in
  let top := inject_Z (max_break_minutes rules) in
  match assess_risk_level (stats w) with
  | LOW => (base <= break <= base + 30)%Q
  | MEDIUM => (base + 30 <= break <= base + 60)%Q
  | HIGH => (base + 60 <= top)%Q -> (base + 60 <= break <= top)%Q
  end.
Proof.
  intros Hr. cbv zeta. unfold calculate_optimal_break.
  rewrite bind_run. cbn [get fst snd].
  destruct (assess_risk_level (stats w)); cbn [ret fst].
  - apply uniform_between; [exact Hr | lra].
  - apply uniform_between; [exact Hr | lra].
  - intro H. now apply uniform_between.
Qed.

(** C7 fails on the code for the installed rules, whose maximum of 45
    minutes is below their minimum of 15 plus 60.  At HIGH risk the break
    is drawn between 75 and 45, so it lies between 45 and 75 minutes: a
    draw of one half or less gives 60 minutes or more, above the maximum,
    and a draw of one half or more gives 60 minutes or less, below the
    minimum plus 60.  No draw gives a break that is both at least 75 and
    at most 45 minutes. *)
Theorem high_risk_break_exceeds_maximum (r : Q) (w : World) :
  is_draw r ->
  assess_risk_level (stats w) = HIGH ->
  let break := fst (calculate_optimal_break default_rules r w) in
  min_break_minutes default_rules = 15 /\
  max_break_minutes default_rules = 45 /\
  (45 <= break <= 75)%Q /\
  ((r <= 1 # 2)%Q -> (60 <= break)%Q) /\
  ((1 # 2 <= r)%Q -> (break <= 60)%Q).
Proof.
  intros [H0 H1] Hrisk. cbv zeta. unfold calculate_optimal_break.
  rewrite bind_run. cbn [get fst snd]. rewrite Hrisk. cbn [ret fst].
  unfold uniform. cbn [default_rules min_break_minutes max_break_minutes].
  change (inject_Z 15) with 15%Q. change (inject_Z 45) with 45%Q.
  split; [reflexivity|]. split; [reflexivity|].
  split; [split; lra|]. split; intro H; lra.
Qed.

(** The installed rules after one failed page, with the draw one half: the
    break is 60 minutes, above the maximum of 45 and below the 75 that the
    claim gives as its least length. *)
Lemma high_risk_break_exceeds_maximum_witness :
  let w := set_stats stats_one_failure fresh_world in
  let break := fst (calculate_optimal_break default_rules (1 # 2) w) in
  is_draw (1 # 2) /\
  assess_risk_level (stats w) = HIGH /\
  (break == 60)%Q /\
  ~ (inject_Z (min_break_minutes default_rules) + 60 <= break)%Q /\
  ~ (break <= inject_Z (max_break_minutes default_rules))%Q.
Proof.
  intros w break.
  assert (Hr : is_draw (1 # 2)) by (split; reflexivity || discriminate).
  assert (Hrisk : assess_risk_level (stats w) = HIGH) by reflexivity.
  split; [exact Hr|]. split; [exact Hrisk|].
  destruct (high_risk_break_exceeds_maximum (1 # 2) w Hr Hrisk)
    as (Hmin & Hmax & _ & Hlow & Hhigh).
  fold break in Hlow, Hhigh.
  assert (Hle : (60 <= break)%Q) by (apply Hlow; apply Qle_refl).
  assert (Hge : (break <= 60)%Q) by (apply Hhigh; apply Qle_refl).
  rewrite Hmin, Hmax.
  change (inject_Z 15) with 15%Q. change (inject_Z 45) with 45%Q.
  split; [apply Qle_antisym; assumption|].
  split; intro H; lra.
Defined.

(** ** The continuation decision *)

Lemma guards_logged_app (l1 l2 : list LogRecord) :
  guards_logged (l1 ++ l2) = guards_logged l1 ++ guards_logged l2.
Proof.
  induction l1 as [|[lvl msg] l1 IH]; [reflexivity|].
  destruct msg; simpl; rewrite IH; reflexivity.
Qed.

Lemma logger_guards (lvl : Level) (msg : Message) (w : World) :
  guards_logged (log (snd (logger lvl msg w))) =
  guards_logged (log w) ++ guards_logged [(lvl, msg)].
Proof.
  destruct w; cbn [logger modify snd set_log log].
  apply guards_logged_app.
Qed.

Lemma save_progress_guards (p : Progress) (w : World) :
  guards_logged (log (snd (save_progress p w))) = guards_logged (log w) /\
  stats (snd (save_progress p w)) = stats w.
Proof.
  rewrite save_progress_run. destruct (disk_writable w); cbn;
    rewrite guards_logged_app; cbn; rewrite app_nil_r; split; reflexivity.
Qed.

Lemma load_progress_guards (now : Z) (w : World) :
  guards_logged (log (snd (load_progress now w))) = guards_logged (log w).
Proof.
  unfold load_progress, create_initial_progress, save_progress.
  destruct w as [l n c s pf cf wr lg].
  destruct pf as [| |q]; destruct wr; cbn -[strftime_date];
    rewrite ?guards_logged_app; cbn -[strftime_date];
    rewrite ?app_nil_r; reflexivity.
Qed.

Lemma schedule_tomorrow_run (now : Z) (w : World) :
  fst (schedule_tomorrow now w) = TOMORROW /\
  guards_logged (log (snd (schedule_tomorrow now w))) = guards_logged (log w).
Proof.
  unfold schedule_tomorrow.
  repeat (rewrite bind_run; cbv beta).
  cbn [ret fst snd]. split; [reflexivity|].
  destruct (save_progress_guards
              (with_next_session_time (plus_one_day now)
                 (fst (load_progress now (snd (logger INFO ContinuingTomorrow w)))))
              (snd (load_progress now (snd (logger INFO ContinuingTomorrow w)))))
    as [Hs _].
  rewrite Hs, load_progress_guards.
  destruct w; cbn. rewrite guards_logged_app. cbn. now rewrite app_nil_r.
Qed.

Lemma break_loop_guards (activities : list (string * Q)) (total : Q)
      (w : World) :
  guards_logged (log (snd (break_loop activities total w))) =
  guards_logged (log w).
Proof.
  revert w. induction activities as [|[name ratio] rest IH]; intro w;
    [reflexivity|].
  cbn [break_loop]. rewrite bind_run.
  destruct (Qle_bool 0 (total * ratio)).
  - rewrite IH. destruct w; cbn. rewrite guards_logged_app. cbn.
    now rewrite app_nil_r.
  - destruct w; cbn. rewrite guards_logged_app. cbn. now rewrite app_nil_r.
Qed.

Lemma break_sleep_sign (d ratio : Q) :
  (0 < ratio)%Q -> Qle_bool 0 (d * 60 * ratio) = Qle_bool 0 d.
Proof.
  intro Hr.
  destruct (Qle_bool 0 d) eqn:E.
  - apply Qle_bool_iff in E. apply Qle_bool_iff. nra.
  - destruct (Qle_bool 0 (d * 60 * ratio)) eqn:E'; [|reflexivity].
    apply Qle_bool_iff in E'.
    assert (Hd : (0 <= d)%Q) by nra.
    apply Qle_bool_iff in Hd. congruence.
Qed.

(** The break returns when its length is not negative and raises
    otherwise. *)
Lemma intelligent_break_run (d : Q) (w : World) :
  fst (intelligent_break d w) =
    (if Qle_bool 0 d then Returns tt else Raises) /\
  guards_logged (log (snd (intelligent_break d w))) = guards_logged (log w).
Proof.
  unfold intelligent_break. rewrite bind_run. cbv beta. rewrite bind_run.
  set (w1 := snd (logger INFO (IntelligentBreakStarting d) w)).
  assert (H1 : guards_logged (log w1) = guards_logged (log w)).
  { unfold w1. destruct w; cbn. rewrite guards_logged_app. cbn.
    now rewrite app_nil_r. }
  pose proof (break_loop_guards break_activities (d * 60) w1) as Hg.
  assert (Hf : fst (break_loop break_activities (d * 60) w1) =
               if Qle_bool 0 d then Returns tt else Raises).
  { unfold break_activities. cbn [break_loop].
    repeat (rewrite bind_run; cbv beta).
    rewrite !break_sleep_sign by reflexivity.
    destruct (Qle_bool 0 d); reflexivity. }
  rewrite Hf.
  destruct (Qle_bool 0 d).
  - rewrite bind_run. cbn [ret fst snd]. split; [reflexivity|].
    rewrite logger_guards. cbn [guards_logged]. rewrite app_nil_r. congruence.
  - cbn [ret fst snd]. split; [reflexivity|]. congruence.
Qed.

Lemma calculate_optimal_break_pure (rules : Rules) (r : Q) (w : World) :
  snd (calculate_optimal_break rules r w) = w.
Proof.
  unfold calculate_optimal_break. rewrite bind_run. cbn [get fst snd].
  destruct (assess_risk_level (stats w)); reflexivity.
Qed.

Lemma continue_with_break_run (rules : Rules) (r : Q) (w : World) :
  fst (continue_with_break rules r w) =
    (if Qle_bool 0 (fst (calculate_optimal_break rules r w))
     then Returns CONTINUE else Raises) /\
  guards_logged (log (snd (continue_with_break rules r w))) =
    guards_logged (log w).
Proof.
  unfold continue_with_break.
  repeat (rewrite bind_run; cbv beta).
  rewrite calculate_optimal_break_pure.
  set (d := fst (calculate_optimal_break rules r w)).
  set (w1 := snd (logger INFO (MinuteBreakThenNextBatch d) w)).
  destruct (intelligent_break_run d w1) as [Hf Hg].
  assert (H1 : guards_logged (log w1) = guards_logged (log w)).
  { unfold w1. rewrite logger_guards. cbn [guards_logged]. apply app_nil_r. }
  rewrite Hf. destruct (Qle_bool 0 d); cbn [ret fst snd];
    (split; [reflexivity | congruence]).
Qed.

Lemma load_progress_ignores_log (now : Z) (l : list LogRecord) (w : World) :
  fst (load_progress now (set_log l w)) = fst (load_progress now w).
Proof.
  unfold load_progress, create_initial_progress, save_progress.
  destruct w as [ls n c s pf cf wr lg].
  destruct pf as [| |q]; destruct wr; reflexivity.
Qed.

Lemma calculate_optimal_break_stats (rules : Rules) (r : Q) (w1 w2 : World) :
  stats w1 = stats w2 ->
  fst (calculate_optimal_break rules r w1) =
  fst (calculate_optimal_break rules r w2).
Proof.
  intro H. unfold calculate_optimal_break. rewrite !bind_run.
  cbn [get fst snd]. rewrite H.
  destruct (assess_risk_level (stats w2)); reflexivity.
Qed.

(** Every branch that a tripped guard takes: its message, then
    [schedule_tomorrow]. *)
Lemma tomorrow_branch (msg : Message) (now : Z) (w : World) :
  let branch :=
    logger INFO msg ;; d <- schedule_tomorrow now ;; ret (Returns d) in
  fst (branch w) = Returns TOMORROW /\
  guards_logged (log (snd (branch w))) =
    guards_logged (log w) ++ guards_logged [(INFO, msg)].
Proof.
  cbv zeta. repeat (rewrite bind_run; cbv beta). cbn [ret fst snd].
  destruct (schedule_tomorrow_run now (snd (logger INFO msg w))) as [Hf Hg].
  rewrite Hf, Hg, logger_guards. split; reflexivity.
Qed.

(** C3. The continuation decision is the guard chain of the specification:
    daily page limit, same-day batch limit, success threshold, hour
    cutoff, in that order.  When a guard trips and none before it does, the
    decision is TOMORROW and the log records the verdict of that guard and
    of no other.  When none trips, no verdict is logged and the decision is
    CONTINUE after the break (a break of negative length makes the sleep
    raise).  In particular, with the stored [daily_pages_scraped] at or
    above the limit the decision is TOMORROW on the first guard, for every
    statistics, clock and draw. *)
Theorem decide_continuation_guard_chain (rules : Rules)
        (completed_batch : Batch.t) (now : Z) (r : Q) (w : World) :
  let progress := fst (load_progress now w) in
  let outcome := fst (decide_continuation rules completed_batch now r w) in
  let w' := snd (decide_continuation rules completed_batch now r w) in
  (forall g,
      first_tripped rules progress (stats w) now = Some g ->
      outcome = Returns TOMORROW /\
      guards_logged (log w') = guards_logged (log w) ++ [g]) /\
  (first_tripped rules progress (stats w) now = None ->
   guards_logged (log w') = guards_logged (log w) /\
   outcome = if Qle_bool 0 (fst (calculate_optimal_break rules r w))
             then Returns CONTINUE else Raises) /\
  (daily_page_limit rules <= stored_daily_pages (PROGRESS_FILE w) ->
   outcome = Returns TOMORROW /\
   guards_logged (log w') = guards_logged (log w) ++ [DailyPageLimit]).
Proof.
  cbv zeta.
  set (progress := fst (load_progress now w)).
  unfold decide_continuation.
  rewrite bind_run. cbv beta. rewrite bind_run. cbv beta.
  set (w1 := snd (logger INFO (MakingContinuationDecision (Batch.id completed_batch)) w)).
  assert (Hp : fst (load_progress now w1) = progress).
  { unfold w1, progress. cbn [logger modify snd]. apply load_progress_ignores_log. }
  rewrite Hp.
  set (w2 := snd (load_progress now w1)).
  assert (Hs2 : stats w2 = stats w).
  { unfold w2. destruct (load_progress_effect now w1) as (H & _).
    rewrite H. unfold w1. destruct w; reflexivity. }
  assert (Hg2 : guards_logged (log w2) = guards_logged (log w)).
  { unfold w2. rewrite load_progress_guards. unfold w1.
    rewrite logger_guards. cbn [guards_logged]. apply app_nil_r. }
  assert (Hd : daily_pages_scraped progress =
               stored_daily_pages (PROGRESS_FILE w)).
  { unfold progress. now destruct (load_progress_effect now w)
      as (_ & _ & _ & _ & _ & _ & _ & H & _). }
  unfold first_tripped, guard_chain. cbn [find guard_trips].
  destruct (daily_page_limit rules <=? daily_pages_scraped progress) eqn:E1.
  { destruct (tomorrow_branch DailyPageLimitExceeded now w2) as [Hf Hg].
    cbv zeta in Hf, Hg. rewrite Hf, Hg, Hg2. cbn [guards_logged].
    split; [|split].
    - intros g Hsome. injection Hsome as <-. split; reflexivity.
    - discriminate.
    - intros _. split; reflexivity. }
  destruct (same_day_max_batches rules <=?
            len (filter (fun b => Completed.date b =? strftime_date now)
                        (completed_batches progress))) eqn:E2.
  { destruct (tomorrow_branch SameDayBatchLimitExceeded now w2) as [Hf Hg].
    cbv zeta in Hf, Hg. rewrite Hf, Hg, Hg2. cbn [guards_logged].
    split; [|split].
    - intros g Hsome. injection Hsome as <-. split; reflexivity.
    - discriminate.
    - intro Hlim. apply Z.leb_gt in E1. lia. }
  rewrite bind_run. cbv beta. cbn [get fst snd]. rewrite Hs2.
  destruct (Qltb (calculate_success_rate (stats w))
                 (inject_Z (success_threshold rules))) eqn:E3.
  { destruct (tomorrow_branch
                (LowSuccessRate (calculate_success_rate (stats w))) now w2)
      as [Hf Hg].
    cbv zeta in Hf, Hg. rewrite Hf, Hg, Hg2. cbn [guards_logged].
    split; [|split].
    - intros g Hsome. injection Hsome as <-. split; reflexivity.
    - discriminate.
    - intro Hlim. apply Z.leb_gt in E1. lia. }
  destruct (18 <=? hour_of now) eqn:E4.
  { destruct (tomorrow_branch EveningHours now w2) as [Hf Hg].
    cbv zeta in Hf, Hg. rewrite Hf, Hg, Hg2. cbn [guards_logged].
    split; [|split].
    - intros g Hsome. injection Hsome as <-. split; reflexivity.
    - discriminate.
    - intro Hlim. apply Z.leb_gt in E1. lia. }
  rewrite bind_run. cbv beta.
  set (w3 := snd (logger INFO AllChecksOK w2)).
  destruct (continue_with_break_run rules r w3) as [Hf Hg].
  assert (Hs3 : stats w3 = stats w).
  { unfold w3. rewrite <- Hs2. destruct w2; reflexivity. }
  assert (Hg3 : guards_logged (log w3) = guards_logged (log w)).
  { unfold w3. rewrite logger_guards, Hg2. cbn [guards_logged].
    apply app_nil_r. }
  rewrite Hf, Hg, Hg3, (calculate_optimal_break_stats rules r w3 w Hs3).
  split; [|split].
  - discriminate.
  - intros _. split; reflexivity.
  - intro Hlim. apply Z.leb_gt in E1. lia.
Qed.

(** Scenario C on the code: 50 pages stored against a limit of 50, in a
    session whose success rate is 100. *)
Lemma decide_continuation_guard_chain_witness :
  let w := set_progress_file (ProgressJson progress_of_yesterday) fresh_world in
  let w' := snd (decide_continuation default_rules batch_1 100000 (1 # 2) w) in
  daily_page_limit default_rules <= stored_daily_pages (PROGRESS_FILE w) /\
  fst (decide_continuation default_rules batch_1 100000 (1 # 2) w)
    = Returns TOMORROW /\
  guards_logged (log w') = guards_logged (log w) ++ [DailyPageLimit].
Proof.
  intros w w'.
  assert (H : daily_page_limit default_rules
              <= stored_daily_pages (PROGRESS_FILE w)) by (cbn; lia).
  split; [exact H|].
  destruct (decide_continuation_guard_chain default_rules batch_1 100000
                                            (1 # 2) w) as (_ & _ & Hdaily).
  exact (Hdaily H).
Defined.

(** ** Failed pages and the daily limit *)

(** The first guard decides as soon as the stored count reaches the
    limit. *)
Lemma daily_limit_decides (rules : Rules) (completed_batch : Batch.t)
      (now : Z) (r : Q) (w : World) :
  daily_page_limit rules <= stored_daily_pages (PROGRESS_FILE w) ->
  fst (decide_continuation rules completed_batch now r w) = Returns TOMORROW.
Proof.
  intro Hlimit. unfold decide_continuation.
  rewrite bind_run. cbv beta. rewrite bind_run. cbv beta.
  set (w1 := snd (logger INFO
                    (MakingContinuationDecision (Batch.id completed_batch)) w)).
  assert (Hd : daily_pages_scraped (fst (load_progress now w1)) =
               stored_daily_pages (PROGRESS_FILE w)).
  { destruct (load_progress_effect now w1)
      as (_ & _ & _ & _ & _ & _ & _ & H & _).
    rewrite H. unfold w1. destruct w; reflexivity. }
  rewrite Hd.
  apply Z.leb_le in Hlimit. rewrite Hlimit.
  now destruct (tomorrow_branch DailyPageLimitExceeded now
                                (snd (load_progress now w1))).
Qed.

(** C10. A completed batch is accounted for by its whole page range.  For
    every fetcher, hence whatever pages failed, the completion record that
    [run_batch] appends has [pages_scraped = end - start + 1] and the same
    amount is added to [daily_pages_scraped]; the pages counted as failed
    are part of that amount, and so of what the daily page limit is
    compared with when the continuation is decided. *)
Theorem run_batch_counts_whole_range (fetch : Z -> PageOutcome)
        (batch_info : Batch.t) (now : Z) (w : World) :
  disk_writable w = true ->
  Batch.start batch_info <= Batch.end_ batch_info ->
  let pages := range (Batch.start batch_info) (Batch.end_ batch_info + 1) in
  let size := Batch.end_ batch_info - Batch.start batch_info + 1 in
  let w' := snd (run_batch fetch batch_info now w) in
  (exists c,
      stored_completed (PROGRESS_FILE w') =
        stored_completed (PROGRESS_FILE w) ++ [c] /\
      Completed.id c = Batch.id batch_info /\
      Completed.pages_scraped c = size) /\
  stored_daily_pages (PROGRESS_FILE w') =
    stored_daily_pages (PROGRESS_FILE w) + size /\
  failed_pages (stats w') - failed_pages (stats w) =
    len (filter (fun p => page_fails (fetch p)) pages) /\
  0 <= failed_pages (stats w') - failed_pages (stats w) <= size /\
  (forall rules later r,
      daily_page_limit rules <= stored_daily_pages (PROGRESS_FILE w) + size ->
      fst (decide_continuation rules batch_info later r w')
      = Returns TOMORROW).
Proof.
  intros Hw Hle pages size w'.
  destruct (run_batch_effect fetch batch_info now w)
    as (_ & Hfile & Hfailed & _ & _).
  fold pages in Hfile, Hfailed. fold w' in Hfile, Hfailed.
  destruct (Hfile Hw) as (p & c & Hp & _ & Hc & Hcid & _ & Hcp & Hd & _).
  assert (Hlen : len pages = size).
  { unfold pages, size. rewrite range_length. lia. }
  assert (Hdaily : stored_daily_pages (PROGRESS_FILE w') =
                   stored_daily_pages (PROGRESS_FILE w) + size).
  { rewrite Hp. cbn [stored_daily_pages]. rewrite Hd, Hlen. reflexivity. }
  split; [|split; [exact Hdaily | split; [|split]]].
  - exists c. rewrite Hp. cbn [stored_completed].
    rewrite Hc, Hcid, Hcp, Hlen. repeat split.
  - rewrite Hfailed. lia.
  - rewrite Hfailed, <- Hlen. unfold len.
    pose proof (filter_length_le (fun p => page_fails (fetch p)) pages).
    lia.
  - intros rules later r Hlimit. apply daily_limit_decides.
    rewrite Hdaily. exact Hlimit.
Qed.

(** The batch of pages 51 to 60 with a fetcher that raises on every page,
    50 pages being counted already: ten pages are added to the count all
    the same, and the limit of 50 pages is met. *)
Lemma run_batch_counts_whole_range_witness :
  let fetch := fun _ : Z => PageException in
  let w := set_progress_file (ProgressJson progress_of_yesterday) fresh_world in
  let w' := snd (run_batch fetch batch_1 100000 w) in
  disk_writable w = true /\
  Batch.start batch_1 <= Batch.end_ batch_1 /\
  stored_daily_pages (PROGRESS_FILE w') = 50 + 10 /\
  failed_pages (stats w') - failed_pages (stats w) = 10 /\
  fst (decide_continuation default_rules batch_1 100000 (1 # 2) w')
  = Returns TOMORROW.
Proof.
  intros fetch w w'.
  assert (Hle : Batch.start batch_1 <= Batch.end_ batch_1) by (cbn; lia).
  split; [reflexivity|]. split; [exact Hle|].
  destruct (run_batch_counts_whole_range fetch batch_1 100000 w eq_refl Hle)
    as (_ & Hdaily & Hfailed & _ & Hlimit).
  split; [exact Hdaily|]. split; [exact Hfailed|].
  apply Hlimit. cbn. lia.
Defined.

(** * Further properties of the code *)

(** ** Success rate and risk *)

(** X1. With counters that are not negative the success rate is a
    percentage, and it is 100 exactly when no page has failed. *)
Theorem success_rate_is_percentage (s : Stats) :
  0 <= successful_pages s ->
  0 <= failed_pages s ->
  (0 <= calculate_success_rate s <= 100)%Q /\
  ((calculate_success_rate s == 100)%Q <-> failed_pages s = 0).
Proof.
  intros Hs Hf. unfold calculate_success_rate.
  destruct (successful_pages s + failed_pages s =? 0) eqn:E.
  - apply Z.eqb_eq in E. split; [split; discriminate|].
    split; [intros _; lia | reflexivity].
  - apply Z.eqb_neq in E.
    set (n := successful_pages s) in *. set (f := failed_pages s) in *.
    assert (Hpos : (0 < inject_Z (n + f))%Q).
    { rewrite <- (Zlt_Qlt 0). lia. }
    assert (Hn : (0 <= inject_Z n)%Q) by (rewrite <- (Zle_Qle 0); exact Hs).
    assert (Hle : (inject_Z n <= inject_Z (n + f))%Q)
      by (rewrite <- Zle_Qle; lia).
    assert (Hrate : (inject_Z n / inject_Z (n + f) * 100 ==
                     100 * inject_Z n / inject_Z (n + f))%Q)
      by (field; intro H0; rewrite H0 in Hpos; discriminate).
    rewrite Hrate. split; [split|split].
    + apply Qle_shift_div_l; [exact Hpos|]. nra.
    + apply Qle_shift_div_r; [exact Hpos|]. nra.
    + intro H100.
      assert (H : (100 * inject_Z n == 100 * inject_Z (n + f))%Q).
      { setoid_replace (100 * inject_Z n)%Q
          with (100 * inject_Z n / inject_Z (n + f) * inject_Z (n + f))%Q
          by (field; intro H0; rewrite H0 in Hpos; discriminate).
        rewrite H100. reflexivity. }
      assert (H' : (inject_Z n == inject_Z (n + f))%Q) by lra.
      unfold Qeq in H'. cbn [inject_Z Qnum Qden] in H'. lia.
    + intro H0. rewrite H0, Z.add_0_r. field.
      intro Hz. rewrite H0, Z.add_0_r in Hpos. rewrite Hz in Hpos.
      discriminate.
Qed.

Lemma success_rate_is_percentage_witness :
  let s := mkStats 0 9 1 9 2 0 in
  0 <= successful_pages s /\ 0 <= failed_pages s /\
  (0 <= calculate_success_rate s <= 100)%Q.
Proof.
  intro s.
  assert (H1 : 0 <= successful_pages s) by (cbn; lia).
  assert (H2 : 0 <= failed_pages s) by (cbn; lia).
  split; [exact H1|]. split; [exact H2|].
  exact (proj1 (success_rate_is_percentage s H1 H2)).
Defined.

(** X2. The risk level is monotone: a success rate at least as high
    together with an average response time at most as long never gives a
    less favourable level. *)
Theorem assess_risk_level_monotone (s1 s2 : Stats) :
  (calculate_success_rate s1 <= calculate_success_rate s2)%Q ->
  (avg_response_time s2 <= avg_response_time s1)%Q ->
  risk_rank (assess_risk_level s2) <= risk_rank (assess_risk_level s1).
Proof.
  intros Hrate Havg. unfold assess_risk_level.
  destruct (Qle_bool 95 (calculate_success_rate s1)
            && Qltb (avg_response_time s1) 3) eqn:L1.
  - apply andb_true_iff in L1. destruct L1 as [A B].
    apply Qle_bool_iff in A. apply Qltb_lt in B.
    assert (L2 : Qle_bool 95 (calculate_success_rate s2)
                 && Qltb (avg_response_time s2) 3 = true).
    { apply andb_true_iff. split; [apply Qle_bool_iff | apply Qltb_lt]; lra. }
    rewrite L2. cbn. lia.
  - destruct (Qle_bool 85 (calculate_success_rate s1)
              && Qltb (avg_response_time s1) 5) eqn:M1.
    + apply andb_true_iff in M1. destruct M1 as [A B].
      apply Qle_bool_iff in A. apply Qltb_lt in B.
      assert (M2 : Qle_bool 85 (calculate_success_rate s2)
                   && Qltb (avg_response_time s2) 5 = true).
      { apply andb_true_iff. split; [apply Qle_bool_iff | apply Qltb_lt]; lra. }
      rewrite M2.
      destruct (Qle_bool 95 (calculate_success_rate s2)
                && Qltb (avg_response_time s2) 3); cbn; lia.
    + destruct (Qle_bool 95 (calculate_success_rate s2)
                && Qltb (avg_response_time s2) 3);
        [cbn; lia|].
      destruct (Qle_bool 85 (calculate_success_rate s2)
                && Qltb (avg_response_time s2) 5); cbn; lia.
Qed.

Lemma assess_risk_level_monotone_witness :
  let s1 := mkStats 0 8 2 8 4 0 in
  let s2 := mkStats 0 19 1 19 2 0 in
  (calculate_success_rate s1 <= calculate_success_rate s2)%Q /\
  (avg_response_time s2 <= avg_response_time s1)%Q /\
  assess_risk_level s1 = HIGH /\
  assess_risk_level s2 = LOW /\
  risk_rank (assess_risk_level s2) <= risk_rank (assess_risk_level s1).
Proof.
  intros s1 s2.
  assert (H1 : (calculate_success_rate s1 <= calculate_success_rate s2)%Q)
    by (vm_compute; discriminate).
  assert (H2 : (avg_response_time s2 <= avg_response_time s1)%Q)
    by (vm_compute; discriminate).
  split; [exact H1|]. split; [exact H2|].
  split; [reflexivity|]. split; [reflexivity|].
  exact (assess_risk_level_monotone s1 s2 H1 H2).
Defined.

(** ** The progress store, further *)

(** X3. What [save_progress] writes, [load_progress] reads back: on a disk
    that takes the write, the next load returns the saved state, at any
    clock, and leaves it in the file. *)
Theorem save_then_load (p : Progress) (now : Z) (w : World) :
  disk_writable w = true ->
  let saved := snd (save_progress p w) in
  fst (load_progress now saved) = p /\
  PROGRESS_FILE (snd (load_progress now saved)) = ProgressJson p.
Proof.
  intro Hw. cbv zeta. rewrite save_progress_run, Hw.
  unfold load_progress. destruct w; cbn. split; reflexivity.
Qed.

Lemma save_then_load_witness :
  disk_writable fresh_world = true /\
  fst (load_progress 100000
         (snd (save_progress progress_of_yesterday fresh_world)))
  = progress_of_yesterday.
Proof.
  split; [reflexivity|].
  exact (proj1 (save_then_load progress_of_yesterday 100000 fresh_world
                               eq_refl)).
Defined.

(** X4. Loading settles the progress: on a disk that takes writes, after a
    first load every later load returns the same state, whatever the file
    was and whatever the clock is; in particular a state initialised for a
    missing or unloadable file keeps the date of the first load. *)
Theorem load_progress_settles (now later : Z) (w : World) :
  disk_writable w = true ->
  let p := fst (load_progress now w) in
  let w1 := snd (load_progress now w) in
  PROGRESS_FILE w1 = ProgressJson p /\
  fst (load_progress later w1) = p /\
  PROGRESS_FILE (snd (load_progress later w1)) = ProgressJson p.
Proof.
  intro Hw. cbv zeta.
  destruct (load_progress_effect now w)
    as (_ & _ & _ & _ & _ & _ & _ & _ & _ & Hfile).
  specialize (Hfile Hw).
  set (p := fst (load_progress now w)) in *.
  set (w1 := snd (load_progress now w)) in *.
  split; [exact Hfile|].
  destruct (load_progress_effect later w1)
    as (_ & _ & _ & _ & _ & _ & _ & _ & Hsame & _).
  rewrite (Hsame p Hfile). split; [reflexivity|].
  unfold load_progress. rewrite bind_run. cbn [get fst snd].
  rewrite Hfile. rewrite bind_run. cbn [ret snd].
  destruct w1; cbn in *. exact Hfile.
Qed.

Lemma load_progress_settles_witness :
  let p := fst (load_progress 100000 fresh_world) in
  let w1 := snd (load_progress 100000 fresh_world) in
  disk_writable fresh_world = true /\
  last_scrape_date p = 1 /\
  fst (load_progress 200000 w1) = p.
Proof.
  intros p w1. split; [reflexivity|]. split; [reflexivity|].
  exact (proj1 (proj2 (load_progress_settles 100000 200000 fresh_world
                                             eq_refl))).
Defined.

(** X5. [get_next_batch] returns the first configured batch whose id is
    the stored [current_batch_id], id 1 standing in for a missing or
    unloadable file, and [None] exactly when no configured batch has that
    id. *)
Theorem get_next_batch_spec (batches : list Batch.t) (now : Z) (w : World) :
  let id := stored_batch_id (PROGRESS_FILE w) in
  match fst (get_next_batch batches now w) with
  | Some batch =>
      Batch.id batch = id /\
      exists before after,
        batches = before ++ batch :: after /\
        forall b, In b before -> Batch.id b <> id
  | None => forall b, In b batches -> Batch.id b <> id
  end.
Proof.
  cbv zeta. unfold get_next_batch. rewrite bind_run. cbn [ret fst].
  destruct (load_progress_effect now w)
    as (_ & _ & _ & _ & _ & Hid & _).
  rewrite Hid. clear Hid.
  generalize (stored_batch_id (PROGRESS_FILE w)). intro id.
  induction batches as [|b rest IH]; cbn [find].
  - intros b [].
  - destruct (Batch.id b =? id) eqn:E.
    + apply Z.eqb_eq in E. split; [exact E|].
      exists [], rest. split; [reflexivity | intros x []].
    + apply Z.eqb_neq in E.
      destruct (find (fun batch => Batch.id batch =? id) rest) as [found|].
      * destruct IH as (Hfound & before & after & Hsplit & Hbefore).
        split; [exact Hfound|].
        exists (b :: before), after. split; [now rewrite Hsplit|].
        intros x [<- | Hx]; [exact E | now apply Hbefore].
      * intros x [<- | Hx]; [exact E | now apply IH].
Qed.

(** X6. The batch id advances by one: after [run_batch] on a disk that
    takes writes, [get_next_batch] looks for the id of the batch just run
    plus one, and answers [None] when no configured batch has it, as with
    the single batch that [__init__] configures. *)
Theorem next_batch_after_run (fetch : Z -> PageOutcome) (batch_info : Batch.t)
        (batches : list Batch.t) (now later : Z) (w : World) :
  disk_writable w = true ->
  let w' := snd (run_batch fetch batch_info now w) in
  fst (get_next_batch batches later w') =
    find (fun b => Batch.id b =? Batch.id batch_info + 1) batches /\
  (batches = [batch_info] -> fst (get_next_batch batches later w') = None).
Proof.
  intros Hw w'.
  destruct (run_batch_effect fetch batch_info now w) as (_ & Hfile & _).
  destruct (Hfile Hw) as (p & c & Hp & Hid & _). fold w' in Hp.
  assert (Hnext : fst (get_next_batch batches later w') =
                  find (fun b => Batch.id b =? Batch.id batch_info + 1) batches).
  { unfold get_next_batch. rewrite bind_run. cbn [ret fst].
    destruct (load_progress_effect later w')
      as (_ & _ & _ & _ & _ & H & _).
    rewrite H, Hp. cbn [stored_batch_id]. now rewrite Hid. }
  split; [exact Hnext|].
  intros ->. rewrite Hnext. cbn [find].
  destruct (Batch.id batch_info =? Batch.id batch_info + 1) eqn:E;
    [apply Z.eqb_eq in E; lia | reflexivity].
Qed.

Lemma next_batch_after_run_witness :
  let w' := snd (run_batch fails_on_55 batch_1 100000 fresh_world) in
  disk_writable fresh_world = true /\
  fst (get_next_batch [batch_1] 100000 fresh_world) = Some batch_1 /\
  fst (get_next_batch [batch_1] 100500 w') = None.
Proof.
  intro w'. split; [reflexivity|]. split; [reflexivity|].
  exact (proj2 (next_batch_after_run fails_on_55 batch_1 [batch_1]
                                     100000 100500 fresh_world eq_refl)
               eq_refl).
Defined.

(** ** The batch runner, further *)

Lemma batch_page_collects (fetch : Z -> PageOutcome) (batch_info : Batch.t)
      (page : Z) (w : World) :
  let w' := snd (batch_page fetch batch_info page w) in
  listings w' = listings w ++ page_records fetch page /\
  total_listings (stats w') =
    total_listings (stats w) + len (page_records fetch page) /\
  scraped_pages w' =
    scraped_pages w + (if page_fails (fetch page) then 0 else 1) /\
  total_pages_scraped (stats w') = total_pages_scraped (stats w) /\
  session_start_time (stats w') = session_start_time (stats w) /\
  current_batch w' = current_batch w.
Proof.
  cbv zeta. unfold batch_page, page_records. rewrite bind_run.
  destruct (fetch page) as [|[|row rest] response_time] eqn:E.
  - rewrite (scrape_page_exception _ _ _ E).
    destruct w as [l n c s pf cf wr lg].
    destruct (page <? Batch.end_ batch_info); cbn;
      rewrite ?app_nil_r; repeat split; lia.
  - rewrite (scrape_page_no_rows _ _ _ _ E).
    destruct w as [l n c s pf cf wr lg].
    destruct (page <? Batch.end_ batch_info); cbn;
      rewrite ?app_nil_r; repeat split; lia.
  - rewrite (scrape_page_rows _ _ _ _ _ _ E).
    destruct w as [l n c s pf cf wr lg].
    destruct (page <? Batch.end_ batch_info);
      cbn -[extracted extraction_warnings]; repeat split.
Qed.

Lemma batch_pages_collect (fetch : Z -> PageOutcome) (batch_info : Batch.t)
      (pages : list Z) (w : World) :
  let w' := snd (for_each pages (batch_page fetch batch_info) w) in
  listings w' = listings w ++ collected fetch pages /\
  total_listings (stats w') =
    total_listings (stats w) + len (collected fetch pages) /\
  scraped_pages w' =
    scraped_pages w
    + len (filter (fun p => negb (page_fails (fetch p))) pages) /\
  total_pages_scraped (stats w') = total_pages_scraped (stats w) /\
  session_start_time (stats w') = session_start_time (stats w) /\
  current_batch w' = current_batch w.
Proof.
  cbv zeta. revert w. induction pages as [|page rest IH]; intro w.
  - cbn. rewrite app_nil_r. repeat split; lia.
  - cbn [for_each]. rewrite bind_run.
    destruct (batch_page_collects fetch batch_info page w)
      as (H1 & H2 & H3 & H4 & H5 & H6).
    destruct (IH (snd (batch_page fetch batch_info page w)))
      as (I1 & I2 & I3 & I4 & I5 & I6).
    rewrite I1, I2, I3, I4, I5, I6, H1, H2, H3, H4, H5, H6.
    unfold collected. cbn [flat_map filter].
    fold (collected fetch rest). unfold len. rewrite length_app.
    destruct (page_fails (fetch page)); cbn [negb Datatypes.length];
      rewrite <- app_assoc; repeat split; try reflexivity; lia.
Qed.

Lemma set_listings_same (w : World) : set_listings (listings w) w = w.
Proof. destruct w; reflexivity. Qed.

Lemma save_batch_data_keeps (w : World) :
  let w' := snd (save_batch_data w) in
  scraped_pages w' = scraped_pages w /\
  current_batch w' = current_batch w /\
  TOTAL_CSV_FILE w' = TOTAL_CSV_FILE (merge (listings w) w).
Proof.
  cbv zeta. split; [|split].
  - unfold save_batch_data.
    destruct w as [l n c s pf cf wr lg].
    destruct l as [|r batch]; [reflexivity|].
    destruct cf as [| |[|a rows]]; [destruct wr; reflexivity .. |].
    cbn -[remove_duplicates fresh_records from_listings read_csv written_row].
    rewrite bind_run, remove_duplicates_run by discriminate.
    cbn -[fresh_records fresh_rows from_listings read_csv written_row].
    destruct (fresh_rows (a :: rows) (r :: batch)); destruct wr; reflexivity.
  - unfold save_batch_data.
    destruct w as [l n c s pf cf wr lg].
    destruct l as [|r batch]; [reflexivity|].
    destruct cf as [| |[|a rows]]; [destruct wr; reflexivity .. |].
    cbn -[remove_duplicates fresh_records from_listings read_csv written_row].
    rewrite bind_run, remove_duplicates_run by discriminate.
    cbn -[fresh_records fresh_rows from_listings read_csv written_row].
    destruct (fresh_rows (a :: rows) (r :: batch)); destruct wr; reflexivity.
  - unfold merge. now rewrite set_listings_same.
Qed.

Lemma load_progress_keeps (now : Z) (w : World) :
  let w' := snd (load_progress now w) in
  scraped_pages w' = scraped_pages w /\
  current_batch w' = current_batch w /\
  (disk_writable w = false -> PROGRESS_FILE w' = PROGRESS_FILE w).
Proof.
  cbv zeta. unfold load_progress, create_initial_progress, save_progress.
  destruct w as [l n c s pf cf wr lg].
  destruct pf as [| |q]; destruct wr; cbn -[strftime_date];
    repeat split; discriminate.
Qed.

(** The dataset file after a merge depends on the file, on the disk and on
    the batch only. *)
Lemma merge_csv_file_ext (batch : list Listing.t) (w1 w2 : World) :
  TOTAL_CSV_FILE w1 = TOTAL_CSV_FILE w2 ->
  disk_writable w1 = disk_writable w2 ->
  TOTAL_CSV_FILE (merge batch w1) = TOTAL_CSV_FILE (merge batch w2).
Proof.
  intros Hf Hw. rewrite !merge_csv_file. cbv zeta. now rewrite Hf, Hw.
Qed.

Lemma after_pages_frame (fetch : Z -> PageOutcome) (batch_info : Batch.t)
      (w : World) :
  let w1 := after_pages fetch batch_info w in
  PROGRESS_FILE w1 = PROGRESS_FILE w /\
  TOTAL_CSV_FILE w1 = TOTAL_CSV_FILE w /\
  disk_writable w1 = disk_writable w.
Proof.
  cbv zeta. unfold after_pages.
  destruct (batch_pages_effect fetch batch_info
              (range (Batch.start batch_info) (Batch.end_ batch_info + 1))
              (set_listings []
                 (set_current_batch (Some batch_info)
                    (snd (logger INFO (BatchStarting batch_info) w)))))
    as (H1 & H2 & H3 & _).
  rewrite H1, H2, H3. destruct w; repeat split.
Qed.

(** [run_batch] after its loop: what the saving of the data and of the
    progress leave of the world of the loop. *)
Lemma run_batch_anatomy (fetch : Z -> PageOutcome) (batch_info : Batch.t)
      (now : Z) (w : World) :
  let w1 := after_pages fetch batch_info w in
  let w' := snd (run_batch fetch batch_info now w) in
  stats w' = stats w1 /\
  listings w' = listings w1 /\
  scraped_pages w' = scraped_pages w1 /\
  current_batch w' = current_batch w1 /\
  disk_writable w' = disk_writable w /\
  TOTAL_CSV_FILE w' = TOTAL_CSV_FILE (merge (listings w1) w) /\
  (disk_writable w = false -> PROGRESS_FILE w' = PROGRESS_FILE w).
Proof.
  cbv zeta. unfold run_batch.
  repeat (rewrite bind_run; cbv beta).
  cbn [modify fst snd ret]. unfold get. cbn [fst snd].
  fold (after_pages fetch batch_info w).
  set (w1 := after_pages fetch batch_info w).
  set (w2 := snd (save_batch_data w1)).
  set (p3 := fst (load_progress now w2)).
  set (w3 := snd (load_progress now w2)).
  rewrite save_progress_run.
  destruct (after_pages_frame fetch batch_info w) as (A1 & A2 & A3).
  fold w1 in A1, A2, A3.
  destruct (save_batch_data_effect w1) as (B1 & B2 & B3 & B4 & _).
  destruct (save_batch_data_keeps w1) as (B5 & B6 & B7).
  fold w2 in B1, B2, B3, B4, B5, B6, B7.
  destruct (load_progress_effect now w2) as (C1 & C2 & C3 & C4 & _).
  destruct (load_progress_keeps now w2) as (C5 & C6 & C7).
  fold w3 in C1, C2, C3, C4, C5, C6, C7.
  assert (Hcsv : TOTAL_CSV_FILE w3 = TOTAL_CSV_FILE (merge (listings w1) w)).
  { rewrite C4, B7. apply merge_csv_file_ext; assumption. }
  assert (Hw3 : disk_writable w3 = disk_writable w) by congruence.
  rewrite Hw3.
  destruct (disk_writable w) eqn:Ew;
    cbn [logger modify fst snd set_log set_progress_file stats listings
         scraped_pages current_batch disk_writable TOTAL_CSV_FILE
         PROGRESS_FILE];
    repeat split; try congruence.
  intros _. rewrite C7 by congruence. congruence.
Qed.

(** The progress that [run_batch] writes on a disk that takes the write. *)
Lemma run_batch_progress (fetch : Z -> PageOutcome) (batch_info : Batch.t)
      (now : Z) (w : World) :
  disk_writable w = true ->
  let w1 := after_pages fetch batch_info w in
  let w' := snd (run_batch fetch batch_info now w) in
  let pages :=
    len (range (Batch.start batch_info) (Batch.end_ batch_info + 1)) in
  exists loaded,
    (forall q, PROGRESS_FILE w = ProgressJson q -> loaded = q) /\
    completed_batches loaded = stored_completed (PROGRESS_FILE w) /\
    PROGRESS_FILE w' =
    ProgressJson
      {| current_batch_id := Batch.id batch_info + 1;
         completed_batches :=
           completed_batches loaded ++
           [{| Completed.id := Batch.id batch_info;
               Completed.name := Batch.name batch_info;
               Completed.start := Batch.start batch_info;
               Completed.end_ := Batch.end_ batch_info;
               Completed.completed_at := now;
               Completed.date := strftime_date now;
               Completed.pages_scraped := pages;
               Completed.listings_found := len (listings w1) |}];
         daily_pages_scraped := daily_pages_scraped loaded + pages;
         last_scrape_date := last_scrape_date loaded;
         session_stats := stats w1;
         next_session_time := next_session_time loaded |}.
Proof.
  intros Hw. cbv zeta. unfold run_batch.
  repeat (rewrite bind_run; cbv beta).
  cbn [modify fst snd ret]. unfold get. cbn [fst snd].
  fold (after_pages fetch batch_info w).
  set (w1 := after_pages fetch batch_info w).
  set (w2 := snd (save_batch_data w1)).
  set (p3 := fst (load_progress now w2)).
  set (w3 := snd (load_progress now w2)).
  rewrite save_progress_run.
  destruct (after_pages_frame fetch batch_info w) as (A1 & _ & A3).
  fold w1 in A1, A3.
  destruct (save_batch_data_effect w1) as (B1 & B2 & B3 & B4 & _).
  fold w2 in B1, B2, B3, B4.
  destruct (load_progress_effect now w2)
    as (C1 & C2 & C3 & _ & _ & _ & C7 & _ & C9 & _).
  fold w3 in C1, C2, C3. fold p3 in C7, C9.
  assert (Hw3 : disk_writable w3 = true) by congruence.
  assert (Hf2 : PROGRESS_FILE w2 = PROGRESS_FILE w) by congruence.
  rewrite Hw3.
  cbn [logger modify fst snd set_log set_progress_file PROGRESS_FILE].
  exists p3. split; [|split].
  - intros q Hq. apply C9. congruence.
  - rewrite C7, Hf2. reflexivity.
  - rewrite C1, C2, B3, B4. reflexivity.
Qed.

(** X7. When the files cannot be opened for writing, [run_batch] still
    scrapes its pages and returns [True], but nothing is kept: [to_csv]
    and [open] raise before a file is touched, both files are as before,
    and [get_next_batch] names the same batch again. *)
Theorem run_batch_on_refusing_disk (fetch : Z -> PageOutcome)
        (batch_info : Batch.t) (batches : list Batch.t) (now later : Z)
        (w : World) :
  disk_writable w = false ->
  let w' := snd (run_batch fetch batch_info now w) in
  fst (run_batch fetch batch_info now w) = true /\
  PROGRESS_FILE w' = PROGRESS_FILE w /\
  TOTAL_CSV_FILE w' = TOTAL_CSV_FILE w /\
  visited (log w') =
    visited (log w)
    ++ range (Batch.start batch_info) (Batch.end_ batch_info + 1) /\
  fst (get_next_batch batches later w') =
    fst (get_next_batch batches later w).
Proof.
  intros Hw w'.
  destruct (run_batch_effect fetch batch_info now w)
    as (Hret & _ & _ & _ & Hvisited).
  destruct (run_batch_anatomy fetch batch_info now w)
    as (_ & _ & _ & _ & _ & Hcsv & Hprogress).
  fold w' in Hvisited, Hcsv, Hprogress.
  specialize (Hprogress Hw).
  split; [exact Hret|]. split; [exact Hprogress|]. split; [|split].
  - rewrite Hcsv, merge_csv_file, Hw. cbv zeta.
    destruct (listings (after_pages fetch batch_info w)); reflexivity.
  - exact Hvisited.
  - unfold get_next_batch. rewrite !bind_run. cbn [ret fst].
    destruct (load_progress_effect later w') as (_ & _ & _ & _ & _ & H1 & _).
    destruct (load_progress_effect later w) as (_ & _ & _ & _ & _ & H2 & _).
    rewrite H1, H2, Hprogress. reflexivity.
Qed.

Lemma run_batch_on_refusing_disk_witness :
  let w := mkWorld [] 0 None (mkStats 0 0 0 0 0 0)
                   NoProgressFile NoCsvFile false [] in
  let w' := snd (run_batch fails_on_55 batch_1 100000 w) in
  disk_writable w = false /\
  fst (run_batch fails_on_55 batch_1 100000 w) = true /\
  PROGRESS_FILE w' = NoProgressFile /\
  TOTAL_CSV_FILE w' = NoCsvFile /\
  fst (get_next_batch [batch_1] 100500 w') = Some batch_1.
Proof.
  intros w w'. split; [reflexivity|].
  destruct (run_batch_on_refusing_disk fails_on_55 batch_1 [batch_1]
                                       100000 100500 w eq_refl)
    as (H1 & H2 & H3 & _ & H5).
  split; [exact H1|]. split; [exact H2|]. split; [exact H3|].
  exact (eq_trans H5 eq_refl).
Defined.

(** What the loop of [run_batch] has collected when it is over. *)
Lemma after_pages_collect (fetch : Z -> PageOutcome) (batch_info : Batch.t)
      (w : World) :
  let pages := range (Batch.start batch_info) (Batch.end_ batch_info + 1) in
  let w1 := after_pages fetch batch_info w in
  listings w1 = collected fetch pages /\
  total_listings (stats w1) =
    total_listings (stats w) + len (collected fetch pages) /\
  scraped_pages w1 =
    scraped_pages w
    + len (filter (fun p => negb (page_fails (fetch p))) pages) /\
  total_pages_scraped (stats w1) = total_pages_scraped (stats w) /\
  current_batch w1 = Some batch_info.
Proof.
  intros pages. cbv zeta. unfold after_pages. fold pages.
  set (w0 := set_listings []
               (set_current_batch (Some batch_info)
                  (snd (logger INFO (BatchStarting batch_info) w)))).
  destruct (batch_pages_collect fetch batch_info pages w0)
    as (L1 & L2 & L3 & L4 & _ & L6).
  assert (Hw0 : listings w0 = [] /\ stats w0 = stats w /\
                scraped_pages w0 = scraped_pages w /\
                current_batch w0 = Some batch_info)
    by (destruct w; repeat split).
  destruct Hw0 as (W1 & W2 & W3 & W4).
  rewrite W1 in L1. rewrite W2 in L2, L4. rewrite W3 in L3. rewrite W4 in L6.
  repeat split; assumption.
Qed.

(** X8. [run_batch] accounts for what it collects.  Its buffer starts
    empty and ends with the records of the pages, page after page;
    [total_listings] grows by their number and [scraped_pages] by the number
    of successful pages; the dataset file is the one that merging these
    records gives; [total_pages_scraped] is never touched. *)
Theorem run_batch_collects (fetch : Z -> PageOutcome) (batch_info : Batch.t)
        (now : Z) (w : World) :
  let pages := range (Batch.start batch_info) (Batch.end_ batch_info + 1) in
  let found := collected fetch pages in
  let w' := snd (run_batch fetch batch_info now w) in
  listings w' = found /\
  current_batch w' = Some batch_info /\
  total_listings (stats w') = total_listings (stats w) + len found /\
  scraped_pages w' - scraped_pages w =
    successful_pages (stats w') - successful_pages (stats w) /\
  total_pages_scraped (stats w') = total_pages_scraped (stats w) /\
  TOTAL_CSV_FILE w' = TOTAL_CSV_FILE (merge found w).
Proof.
  intros pages found w'.
  destruct (run_batch_anatomy fetch batch_info now w)
    as (Hs & Hl & Hn & Hb & _ & Hcsv & _).
  fold w' in Hs, Hl, Hn, Hb, Hcsv.
  destruct (run_batch_effect fetch batch_info now w)
    as (_ & _ & _ & Hok & _).
  fold pages in Hok. fold w' in Hok.
  destruct (after_pages_collect fetch batch_info w)
    as (L1 & L2 & L3 & L4 & L6).
  fold pages in L1, L2, L3. fold found in L1, L2.
  rewrite L1 in Hl, Hcsv.
  rewrite Hok, Hl, Hb, Hs, Hn, L2, L3, L4, L6.
  repeat split; try assumption; try reflexivity. lia.
Qed.

(** X9. The completion record of [run_batch] on a disk that takes the
    write: appended after the stored ones, it carries the id, name and
    range of the batch, the clock, and as [listings_found] the number of
    records collected; the statistics saved beside it are those of the
    session after the batch, and a stored [next_session_time] is carried
    over. *)
Theorem run_batch_completion_record (fetch : Z -> PageOutcome)
        (batch_info : Batch.t) (now : Z) (w : World) :
  disk_writable w = true ->
  let pages := range (Batch.start batch_info) (Batch.end_ batch_info + 1) in
  let w' := snd (run_batch fetch batch_info now w) in
  exists p,
    PROGRESS_FILE w' = ProgressJson p /\
    completed_batches p =
      stored_completed (PROGRESS_FILE w) ++
      [{| Completed.id := Batch.id batch_info;
          Completed.name := Batch.name batch_info;
          Completed.start := Batch.start batch_info;
          Completed.end_ := Batch.end_ batch_info;
          Completed.completed_at := now;
          Completed.date := strftime_date now;
          Completed.pages_scraped := len pages;
          Completed.listings_found := len (collected fetch pages) |}] /\
    session_stats p = stats w' /\
    (forall q, PROGRESS_FILE w = ProgressJson q ->
               next_session_time p = next_session_time q).
Proof.
  intros Hw pages w'.
  destruct (run_batch_progress fetch batch_info now w Hw)
    as (loaded & Hsame & Hcompleted & Hfile).
  fold w' in Hfile. fold pages in Hfile.
  destruct (run_batch_anatomy fetch batch_info now w) as (Hs & Hl & _).
  fold w' in Hs, Hl.
  destruct (after_pages_collect fetch batch_info w) as (Hfound & _).
  fold pages in Hfound.
  eexists. split; [exact Hfile|].
  cbn [completed_batches session_stats next_session_time].
  rewrite Hcompleted, Hfound, Hs.
  split; [reflexivity|]. split; [reflexivity|].
  intros q Hq. now rewrite (Hsame q Hq).
Qed.

Lemma run_batch_completion_record_witness :
  let w' := snd (run_batch fails_on_55 batch_1 100000 fresh_world) in
  disk_writable fresh_world = true /\
  exists p,
    PROGRESS_FILE w' = ProgressJson p /\
    map Completed.listings_found (completed_batches p) = [9] /\
    session_stats p = stats w'.
Proof.
  intro w'. split; [reflexivity|].
  destruct (run_batch_completion_record fails_on_55 batch_1 100000
                                        fresh_world eq_refl)
    as (p & Hfile & Hcompleted & Hstats & _).
  exists p. split; [exact Hfile|]. split; [|exact Hstats].
  rewrite Hcompleted. reflexivity.
Defined.

(** ** The running mean of the response times *)

Lemma after_successes_same (times : list Q) (s1 s2 : Stats) :
  avg_response_time s1 = avg_response_time s2 ->
  successful_pages s1 = successful_pages s2 ->
  avg_response_time (after_successes times s1) =
    avg_response_time (after_successes times s2) /\
  successful_pages (after_successes times s1) =
    successful_pages (after_successes times s2).
Proof.
  revert s1 s2. induction times as [|t rest IH]; intros s1 s2 Ha Hn.
  - split; assumption.
  - cbn [after_successes fold_left].
    apply (IH (add_successful_page 0 t s1) (add_successful_page 0 t s2)).
    + cbn [add_successful_page avg_response_time]. now rewrite Ha, Hn.
    + cbn [add_successful_page successful_pages]. now rewrite Hn.
Qed.

Lemma after_successes_app (l1 l2 : list Q) (s : Stats) :
  after_successes (l1 ++ l2) s = after_successes l2 (after_successes l1 s).
Proof. apply fold_left_app. Qed.

Lemma after_successes_count (times : list Q) (s : Stats) :
  successful_pages (after_successes times s) = successful_pages s + len times.
Proof.
  revert s. induction times as [|t rest IH]; intro s.
  - unfold len. cbn. lia.
  - cbn [after_successes fold_left].
    change (fold_left (fun s0 response_time =>
                         add_successful_page 0 response_time s0) rest
                      (add_successful_page 0 t s))
      with (after_successes rest (add_successful_page 0 t s)).
    rewrite IH. unfold len. cbn [add_successful_page successful_pages
                                 Datatypes.length]. lia.
Qed.

Lemma batch_page_average (fetch : Z -> PageOutcome) (batch_info : Batch.t)
      (page : Z) (w : World) :
  let w' := snd (batch_page fetch batch_info page w) in
  let s := after_successes (response_times fetch [page]) (stats w) in
  avg_response_time (stats w') = avg_response_time s /\
  successful_pages (stats w') = successful_pages s.
Proof.
  cbv zeta. unfold batch_page, response_times. cbn [flat_map].
  rewrite bind_run.
  destruct (fetch page) as [|[|row rest] response_time] eqn:E.
  - rewrite (scrape_page_exception _ _ _ E).
    destruct w as [l n c s pf cf wr lg].
    destruct (page <? Batch.end_ batch_info); cbn; split; reflexivity.
  - rewrite (scrape_page_no_rows _ _ _ _ E).
    destruct w as [l n c s pf cf wr lg].
    destruct (page <? Batch.end_ batch_info); cbn; split; reflexivity.
  - rewrite (scrape_page_rows _ _ _ _ _ _ E).
    destruct w as [l n c s pf cf wr lg].
    destruct (page <? Batch.end_ batch_info);
      cbn -[extracted extraction_warnings Qmult Qplus Qdiv];
      split; reflexivity.
Qed.

Lemma batch_pages_average (fetch : Z -> PageOutcome) (batch_info : Batch.t)
      (pages : list Z) (w : World) :
  let w' := snd (for_each pages (batch_page fetch batch_info) w) in
  let s := after_successes (response_times fetch pages) (stats w) in
  avg_response_time (stats w') = avg_response_time s /\
  successful_pages (stats w') = successful_pages s.
Proof.
  cbv zeta. revert w. induction pages as [|page rest IH]; intro w.
  - split; reflexivity.
  - cbn [for_each]. rewrite bind_run.
    set (w1 := snd (batch_page fetch batch_info page w)).
    destruct (IH w1) as [Ha Hn]. rewrite Ha, Hn.
    destruct (batch_page_average fetch batch_info page w) as [Ha1 Hn1].
    fold w1 in Ha1, Hn1.
    assert (Hcons : response_times fetch (page :: rest) =
                    response_times fetch [page] ++ response_times fetch rest).
    { unfold response_times. cbn [flat_map]. now rewrite app_nil_r. }
    rewrite Hcons, !after_successes_app.
    apply after_successes_same; assumption.
Qed.

(** X10. The average response time is moved by the successful pages
    only.  After a batch it is what the update of [scrape_page] gives when
    it is applied, one after the other, to the response times of the pages
    that succeeded, as if no page had failed between them; the number of
    successful pages has grown by their number; and a batch none of whose
    pages succeeds leaves the average as it was. *)
Theorem run_batch_average_response_time (fetch : Z -> PageOutcome)
        (batch_info : Batch.t) (now : Z) (w : World) :
  let pages := range (Batch.start batch_info) (Batch.end_ batch_info + 1) in
  let times := response_times fetch pages in
  let w' := snd (run_batch fetch batch_info now w) in
  avg_response_time (stats w') =
    avg_response_time (after_successes times (stats w)) /\
  successful_pages (stats w') = successful_pages (stats w) + len times /\
  (times = [] -> avg_response_time (stats w') = avg_response_time (stats w)).
Proof.
  intros pages times w'.
  destruct (run_batch_anatomy fetch batch_info now w) as (Hstats & _).
  fold w' in Hstats. rewrite Hstats. unfold after_pages. fold pages.
  set (w0 := set_listings []
               (set_current_batch (Some batch_info)
                  (snd (logger INFO (BatchStarting batch_info) w)))).
  assert (Hw0 : stats w0 = stats w) by (destruct w; reflexivity).
  destruct (batch_pages_average fetch batch_info pages w0) as [Ha Hn].
  fold times in Ha, Hn. rewrite Hw0 in Ha, Hn.
  split; [exact Ha|]. split.
  - rewrite Hn. apply after_successes_count.
  - intro Hnone. rewrite Ha, Hnone. reflexivity.
Qed.

(** ** The dataset store, further *)

(** X11. The first write is verbatim.  When the store offers no row,
    because the file is missing, unreadable or without rows, a batch that
    is not empty replaces the file as it is, duplicates of a url
    included; in every state of the file the rows it offered stay and only
    records of the batch are added. *)
Theorem merge_first_write_verbatim (batch : list Listing.t) (w : World) :
  (stored_rows (TOTAL_CSV_FILE w) = [] ->
   batch <> [] ->
   disk_writable w = true ->
   TOTAL_CSV_FILE (merge batch w) = CsvRows batch) /\
  (exists added,
      stored_rows (TOTAL_CSV_FILE (merge batch w)) =
        stored_rows (TOTAL_CSV_FILE w) ++ added /\
      forall r, In r added -> In r batch).
Proof.
  rewrite merge_csv_file. cbv zeta. split.
  - intros Hold Hbatch Hw. rewrite Hold, Hw.
    destruct batch; [contradiction | reflexivity].
  - destruct batch as [|b0 batch'].
    { exists []. rewrite app_nil_r. split; [reflexivity | intros r []]. }
    destruct (disk_writable w); cbv beta iota delta [negb].
    + destruct (stored_rows (TOTAL_CSV_FILE w)) as [|o old] eqn:Eo.
      * exists (b0 :: batch'). split; [reflexivity | tauto].
      * destruct (fresh_records (o :: old) (b0 :: batch')) as [|f fs] eqn:Ef.
        -- exists []. rewrite app_nil_r, Eo. split; [reflexivity | intros r []].
        -- exists (f :: fs). split; [reflexivity|].
           intros r Hr. rewrite <- Ef in Hr. now apply fresh_records_in in Hr.
    + exists []. rewrite app_nil_r. split; [reflexivity | intros r []].
Qed.

Lemma merge_first_write_verbatim_witness :
  TOTAL_CSV_FILE (merge [listing "/a" "1"; listing "/a" "2"] fresh_world)
  = CsvRows [listing "/a" "1"; listing "/a" "2"].
Proof.
  apply (proj1 (merge_first_write_verbatim
                  [listing "/a" "1"; listing "/a" "2"] fresh_world));
    [reflexivity | discriminate | reflexivity].
Defined.


Lemma drop_duplicates_NoDup (df : DataFrame) :
  NoDup (column (drop_duplicates_keep_last df)).
Proof.
  induction df as [|a df IH]; cbn [drop_duplicates_keep_last]; [constructor|].
  destruct (isin (url_cell a) (column df)) eqn:E; [exact IH|].
  cbn [column map]. constructor; [|exact IH].
  intro Hin. apply isin_false in E. apply E.
  unfold column in Hin. apply in_map_iff in Hin.
  destruct Hin as (row & Hcell & Hrow). apply drop_duplicates_incl in Hrow.
  rewrite <- Hcell. unfold column. now apply in_map.
Qed.

Lemma drop_duplicates_last (df : DataFrame) (row : FrameRow) :
  In row (drop_duplicates_keep_last df) ->
  exists before after,
    df = before ++ row :: after /\ ~ In (url_cell row) (column after).
Proof.
  induction df as [|a df IH]; cbn [drop_duplicates_keep_last]; [intros []|].
  destruct (isin (url_cell a) (column df)) eqn:E.
  - intro Hin. destruct (IH Hin) as (before & after & -> & Hlast).
    exists (a :: before), after. split; [reflexivity | exact Hlast].
  - intros [<- | Hin].
    + exists [], df. split; [reflexivity | now apply isin_false].
    + destruct (IH Hin) as (before & after & -> & Hlast).
      exists (a :: before), after. split; [reflexivity | exact Hlast].
Qed.

Lemma column_from_listings (l : list Listing.t) :
  column (from_listings l) = map Str (urls l).
Proof.
  unfold column, from_listings, urls. rewrite !map_map. reflexivity.
Qed.

Lemma from_listings_split (l : list Listing.t) (before after : DataFrame)
      (row : FrameRow) :
  from_listings l = before ++ row :: after ->
  exists l1 l2,
    l = l1 ++ record row :: l2 /\ after = from_listings l2.
Proof.
  revert before. induction l as [|r l IH]; intros before H.
  - destruct before; discriminate.
  - destruct before as [|x before]; cbn in H.
    + injection H as <- <-. exists [], l. split; reflexivity.
    + injection H as _ H. destruct (IH before H) as (l1 & l2 & -> & Hafter).
      exists (r :: l1), l2. split; [reflexivity | exact Hafter].
Qed.

(** X12. Within a batch the last record of a url wins.  Against a store
    that holds rows, the records added have pairwise distinct urls, and
    each of them is the last record of the batch with its url. *)
Theorem merge_keeps_last_of_batch (batch : list Listing.t) (w : World) :
  stored_rows (TOTAL_CSV_FILE w) <> [] ->
  exists added,
    TOTAL_CSV_FILE (merge batch w) =
      CsvRows (stored_rows (TOTAL_CSV_FILE w) ++ added) /\
    NoDup (urls added) /\
    forall r, In r added ->
      exists before after,
        batch = before ++ r :: after /\
        ~ In (Listing.url r) (urls after).
Proof.
  intro Hne. rewrite merge_csv_file. cbv zeta.
  assert (Hf : TOTAL_CSV_FILE w = CsvRows (stored_rows (TOTAL_CSV_FILE w))).
  { destruct (TOTAL_CSV_FILE w); cbn in *; congruence. }
  set (old := stored_rows (TOTAL_CSV_FILE w)) in *.
  assert (Hnil : exists added : list Listing.t,
             CsvRows old = CsvRows (old ++ added) /\
             NoDup (urls added) /\
             forall r, In r added ->
               exists before after,
                 batch = before ++ r :: after /\
                 ~ In (Listing.url r) (urls after)).
  { exists []. rewrite app_nil_r. split; [reflexivity|].
    split; [constructor | intros r []]. }
  destruct batch as [|b0 batch']; [rewrite Hf; exact Hnil|].
  set (batch := b0 :: batch') in *.
  destruct (disk_writable w); cbv beta iota delta [negb];
    [|rewrite Hf; exact Hnil].
  destruct old as [|o old'] eqn:Eo; [contradiction|].
  destruct (fresh_records (o :: old') batch) as [|f fs] eqn:Ef;
    [rewrite Hf; exact Hnil|].
  exists (f :: fs). split; [reflexivity|]. rewrite <- Ef.
  assert (Hrows : forall row, In row (fresh_rows (o :: old') batch) ->
                    url_cell row = Str (Listing.url (record row)))
    by (intros row Hrow; now apply fresh_rows_in in Hrow).
  split.
  - (* distinct urls *)
    assert (Hd : NoDup (column (fresh_rows (o :: old') batch))).
    { unfold fresh_rows.
      assert (G : forall (keep : FrameRow -> bool) (df : DataFrame),
                 NoDup (column df) -> NoDup (column (filter keep df))).
      { intros keep df. induction df as [|a df IH]; intro H; [constructor|].
        cbn [column map] in H. inversion H as [|? ? Hnotin Hrest]; subst.
        cbn [filter]. destruct (keep a); [|now apply IH].
        cbn [column map]. constructor; [|now apply IH].
        intro Hin. apply Hnotin. unfold column in Hin.
        apply in_map_iff in Hin. destruct Hin as (row & Hc & Hr).
        apply filter_In in Hr. rewrite <- Hc. now apply in_map. }
      apply G, drop_duplicates_NoDup. }
    assert (Hcol : column (fresh_rows (o :: old') batch) =
                   map Str (urls (fresh_records (o :: old') batch))).
    { unfold column, urls, fresh_records. rewrite !map_map.
      apply map_ext_in. exact Hrows. }
    rewrite Hcol in Hd. now apply NoDup_map_inv in Hd.
  - (* last of the batch *)
    intros r Hr. unfold fresh_records in Hr. apply in_map_iff in Hr.
    destruct Hr as (row & <- & Hrow).
    pose proof (Hrows row Hrow) as Hcell.
    unfold fresh_rows in Hrow. apply filter_In in Hrow.
    destruct Hrow as [Hrow _]. apply drop_duplicates_last in Hrow.
    destruct Hrow as (before & after & Hsplit & Hlast).
    destruct (from_listings_split _ _ _ _ Hsplit) as (l1 & l2 & Hbatch & Hafter).
    exists l1, l2. split; [exact Hbatch|].
    intro Hin. apply Hlast. rewrite Hafter, column_from_listings, Hcell.
    now apply in_map.
Qed.

Lemma merge_keeps_last_of_batch_witness :
  let w := merge [listing "a" "100"] fresh_world in
  let batch := [listing "b" "1"; listing "a" "120"; listing "b" "2"] in
  stored_rows (TOTAL_CSV_FILE w) <> [] /\
  TOTAL_CSV_FILE (merge batch w) =
    CsvRows [listing "a" "100"; listing "b" "2"] /\
  exists added,
    TOTAL_CSV_FILE (merge batch w) =
      CsvRows (stored_rows (TOTAL_CSV_FILE w) ++ added) /\
    NoDup (urls added).
Proof.
  intros w batch.
  assert (H : stored_rows (TOTAL_CSV_FILE w) <> []) by (vm_compute; discriminate).
  split; [exact H|]. split; [reflexivity|].
  destruct (merge_keeps_last_of_batch batch w H) as (added & Hfile & Hd & _).
  exists added. split; assumption.
Defined.

(** ** Extraction of the records of a page *)

Lemma extract_fields_some (row : Row.t) (index page_num : Z) (d : Listing.t) :
  extract_fields row index page_num = Some d ->
  Listing.index d = index /\
  Listing.page_number d = page_num /\
  Listing.scraped_at d = Row.stamped_at row /\
  ((Row.title_elem row = None /\
    Listing.title d = "N/A"%string /\ Listing.url d = "N/A"%string) \/
   (exists text href,
       Row.title_elem row = Some (text, Some href) /\
       Listing.title d = text /\
       Listing.url d = ("https://example-realestate-site.com" ++ href)%string /\
       kept_as_text (Listing.url d) = true)).
Proof.
  unfold extract_fields.
  destruct (Row.title_elem row) as [[text [href|]]|] eqn:E;
    intro H; try discriminate; injection H as <-; cbn;
    repeat split.
  - right. exists text, href. repeat split.
  - left. repeat split.
Qed.

Lemma extracted_from_rows (rows : list Row.t) (i page_num : Z) (d : Listing.t) :
  In d (extracted rows i page_num) ->
  exists row k,
    In row rows /\ i < k <= i + len rows /\
    extract_fields row k page_num = Some d.
Proof.
  revert i. induction rows as [|row rest IH]; intros i; [intros []|].
  cbn [extracted].
  assert (Hlen : len (row :: rest) = len rest + 1)
    by (unfold len; cbn [Datatypes.length]; lia).
  assert (Hrest : In d (extracted rest (i + 1) page_num) ->
            exists row0 k,
              In row0 (row :: rest) /\ i < k <= i + len (row :: rest) /\
              extract_fields row0 k page_num = Some d).
  { intro H. destruct (IH (i + 1) H) as (row0 & k & Hin & Hk & Hsome).
    exists row0, k. split; [now right|]. split; [|exact Hsome].
    assert (0 <= len rest) by (unfold len; lia). lia. }
  destruct (extract_fields row (i + 1) page_num) as [d0|] eqn:E;
    [|exact Hrest].
  intros [<- | H]; [|now apply Hrest].
  exists row, (i + 1). split; [now left|]. split; [|exact E].
  assert (0 <= len rest) by (unfold len; lia). lia.
Qed.

Lemma extracted_nth (rows : list Row.t) (i page_num : Z) (d : Listing.t) :
  In d (extracted rows i page_num) <->
  exists k row,
    nth_error rows k = Some row /\
    extract_fields row (i + Z.of_nat k + 1) page_num = Some d.
Proof.
  revert i. induction rows as [|row rest IH]; intro i.
  - split; [intros [] | intros (k & r & H & _); destruct k; discriminate].
  - cbn [extracted]. split.
    + intro H.
      assert (Hrest : In d (extracted rest (i + 1) page_num) ->
                exists k r,
                  nth_error (row :: rest) k = Some r /\
                  extract_fields r (i + Z.of_nat k + 1) page_num = Some d).
      { intro H'. apply IH in H'. destruct H' as (k & r & Hk & He).
        exists (S k), r. split; [exact Hk|].
        replace (i + Z.of_nat (S k) + 1) with (i + 1 + Z.of_nat k + 1) by lia.
        exact He. }
      destruct (extract_fields row (i + 1) page_num) as [d0|] eqn:E;
        [|now apply Hrest].
      destruct H as [<- | H]; [|now apply Hrest].
      exists 0%nat, row. split; [reflexivity|].
      replace (i + Z.of_nat 0 + 1) with (i + 1) by lia. exact E.
    + intros (k & r & Hk & He). destruct k as [|k].
      * cbn [nth_error] in Hk. injection Hk as <-.
        replace (i + Z.of_nat 0 + 1) with (i + 1) in He by lia.
        rewrite He. now left.
      * cbn [nth_error] in Hk.
        assert (Hin : In d (extracted rest (i + 1) page_num)).
        { apply IH. exists k, r. split; [exact Hk|].
          replace (i + 1 + Z.of_nat k + 1) with (i + Z.of_nat (S k) + 1)
            by lia.
          exact He. }
        destruct (extract_fields row (i + 1) page_num);
          [now right | assumption].
Qed.

Lemma extraction_warnings_nth (rows : list Row.t) (i page_num : Z)
      (k : nat) (row : Row.t) :
  nth_error rows k = Some row ->
  extract_fields row (i + Z.of_nat k + 1) page_num = None ->
  In (WARNING, ListingProcessingError page_num (i + Z.of_nat k + 1))
     (extraction_warnings rows i page_num).
Proof.
  revert i k. induction rows as [|r rest IH]; intros i k Hk He.
  - destruct k; discriminate.
  - cbn [extraction_warnings]. destruct k as [|k].
    + cbn [nth_error] in Hk. injection Hk as ->.
      replace (i + Z.of_nat 0 + 1) with (i + 1) in * by lia.
      rewrite He. now left.
    + cbn [nth_error] in Hk.
      assert (Hin : In (WARNING,
                        ListingProcessingError page_num
                          (i + Z.of_nat (S k) + 1))
                       (extraction_warnings rest (i + 1) page_num)).
      { replace (i + Z.of_nat (S k) + 1) with (i + 1 + Z.of_nat k + 1) in *
          by lia.
        now apply IH. }
      destruct (extract_fields r (i + 1) page_num); [assumption | now right].
Qed.

(** X13. The records of a page.  [process_listings] goes through the rows
    in order and touches nothing but the log: each row gives a record or a
    warning, never both; every record carries the number of the page and
    the place of its row, counted from one, and is what
    [extract_listing_data] makes of that row at that place; the row at
    each place gives its record, or else its warning, which names the
    place; the records come in the order of their rows. *)
Theorem process_listings_records (rows : list Row.t) (page_num : Z)
        (w : World) :
  let out := fst (process_listings rows 0 page_num w) in
  let w' := snd (process_listings rows 0 page_num w) in
  exists warnings,
    w' = set_log (log w ++ warnings) w /\
    len out + len warnings = len rows /\
    Forall (fun d => Listing.page_number d = page_num /\
                     1 <= Listing.index d <= len rows) out /\
    StronglySorted (fun a b => Listing.index a < Listing.index b) out /\
    (forall d, In d out ->
       exists k row,
         nth_error rows k = Some row /\
         Listing.index d = Z.of_nat k + 1 /\
         extract_fields row (Z.of_nat k + 1) page_num = Some d) /\
    (forall k row,
       nth_error rows k = Some row ->
       match extract_fields row (Z.of_nat k + 1) page_num with
       | Some d => In d out
       | None =>
           In (WARNING, ListingProcessingError page_num (Z.of_nat k + 1))
              warnings
       end).
Proof.
  cbv zeta. rewrite process_listings_run. cbn [fst snd].
  exists (extraction_warnings rows 0 page_num).
  split; [reflexivity|]. split; [|split; [|split; [|split]]].
  - generalize 0 as i. induction rows as [|row rest IH]; intro i;
      [reflexivity|].
    cbn [extracted extraction_warnings]. specialize (IH (i + 1)).
    unfold len in *.
    destruct (extract_fields row (i + 1) page_num);
      cbn [Datatypes.length]; lia.
  - apply Forall_forall. intros d Hd.
    apply extracted_from_rows in Hd.
    destruct Hd as (row & k & _ & Hk & Hsome).
    apply extract_fields_some in Hsome.
    destruct Hsome as (Hi & Hp & _). split; [exact Hp | lia].
  - generalize 0 as i. induction rows as [|row rest IH]; intro i;
      [constructor|].
    cbn [extracted].
    destruct (extract_fields row (i + 1) page_num) as [d|] eqn:E;
      [|apply IH].
    constructor; [apply IH|].
    apply Forall_forall. intros d' Hd'.
    apply extracted_from_rows in Hd'.
    destruct Hd' as (row' & k & _ & Hk & Hsome).
    apply extract_fields_some in Hsome. apply extract_fields_some in E.
    destruct Hsome as (-> & _). destruct E as (-> & _). lia.
  - intros d Hd. apply extracted_nth in Hd.
    destruct Hd as (k & row & Hk & He). cbn [Z.add] in He.
    exists k, row. split; [exact Hk|]. split; [|exact He].
    apply extract_fields_some in He. now destruct He as (-> & _).
  - intros k row Hk.
    destruct (extract_fields row (Z.of_nat k + 1) page_num) as [d|] eqn:E.
    + apply extracted_nth. exists k, row. split; [exact Hk | exact E].
    + apply (extraction_warnings_nth rows 0 page_num k row Hk E).
Qed.

Lemma collected_text_urls (fetch : Z -> PageOutcome) (pages : list Z) :
  (forall page rows response_time row,
      In page pages -> fetch page = PageRows rows response_time ->
      In row rows -> Row.title_elem row <> None) ->
  forall r, In r (collected fetch pages) ->
            kept_as_text (Listing.url r) = true.
Proof.
  intros Hlinks r Hr. unfold collected in Hr. apply in_flat_map in Hr.
  destruct Hr as (page & Hpage & Hr). unfold page_records in Hr.
  destruct (fetch page) as [|rows response_time] eqn:E; [destruct Hr|].
  apply extracted_from_rows in Hr.
  destruct Hr as (row & k & Hrow & _ & Hsome).
  apply extract_fields_some in Hsome.
  destruct Hsome as (_ & _ & _ & [(Hnone & _) | (text & href & _ & _ & _ & Hna)]).
  - exfalso. exact (Hlinks page rows response_time row Hpage E Hrow Hnone).
  - exact Hna.
Qed.

(** X14. Running a batch again changes nothing in the dataset when every
    row of its pages has a title link: the urls built from links are read
    back from the file as they were written, and the second merge finds
    every one of them in the store. *)
Theorem run_batch_twice_same_dataset (fetch : Z -> PageOutcome)
        (batch_info : Batch.t) (now later : Z) (w : World) :
  (forall page rows response_time row,
      In page (range (Batch.start batch_info) (Batch.end_ batch_info + 1)) ->
      fetch page = PageRows rows response_time ->
      In row rows -> Row.title_elem row <> None) ->
  let once := snd (run_batch fetch batch_info now w) in
  let twice := snd (run_batch fetch batch_info later once) in
  TOTAL_CSV_FILE twice = TOTAL_CSV_FILE once.
Proof.
  intros Hlinks once twice.
  set (pages := range (Batch.start batch_info) (Batch.end_ batch_info + 1)) in *.
  set (found := collected fetch pages).
  assert (Hrun : forall t v,
             TOTAL_CSV_FILE (snd (run_batch fetch batch_info t v)) =
             TOTAL_CSV_FILE (merge found v) /\
             disk_writable (snd (run_batch fetch batch_info t v)) =
             disk_writable v).
  { intros t v.
    destruct (run_batch_anatomy fetch batch_info t v)
      as (_ & _ & _ & _ & Hw & Hcsv & _).
    destruct (after_pages_collect fetch batch_info v) as (Hl & _).
    rewrite Hl in Hcsv. split; [exact Hcsv | exact Hw]. }
  destruct (Hrun now w) as [H1 W1]. fold once in H1, W1.
  destruct (Hrun later once) as [H2 _]. fold twice in H2.
  rewrite H2, H1.
  rewrite (merge_csv_file_ext found once (merge found w));
    [| exact H1 | now rewrite merge_disk_writable].
  apply merge_idempotent_text_urls.
  now apply collected_text_urls.
Qed.

Lemma run_batch_twice_same_dataset_witness :
  let once := snd (run_batch fails_on_55 batch_1 100000 fresh_world) in
  let twice := snd (run_batch fails_on_55 batch_1 200000 once) in
  (forall page rows response_time row,
      In page (range (Batch.start batch_1) (Batch.end_ batch_1 + 1)) ->
      fails_on_55 page = PageRows rows response_time ->
      In row rows -> Row.title_elem row <> None) /\
  List.length (stored_rows (TOTAL_CSV_FILE once)) = 9%nat /\
  TOTAL_CSV_FILE twice = TOTAL_CSV_FILE once.
Proof.
  intros once twice.
  assert (H : forall page rows response_time row,
             In page (range (Batch.start batch_1) (Batch.end_ batch_1 + 1)) ->
             fails_on_55 page = PageRows rows response_time ->
             In row rows -> Row.title_elem row <> None).
  { intros page rows rt row _ Hfetch Hrow. unfold fails_on_55 in Hfetch.
    destruct (page =? 55); [discriminate|].
    injection Hfetch as <- _. destruct Hrow as [<- | []]. discriminate. }
  split; [exact H|]. split; [reflexivity|].
  exact (run_batch_twice_same_dataset fails_on_55 batch_1 100000 200000
                                      fresh_world H).
Defined.

(** ** The continuation decision, further *)

(** [decide_continuation] as a chain of conditionals over the guards. *)
Lemma decide_continuation_unfold (rules : Rules) (completed_batch : Batch.t)
      (now : Z) (r : Q) (w : World) :
  let progress := fst (load_progress now w) in
  let trips := guard_trips rules progress (stats w) now in
  decide_continuation rules completed_batch now r w =
  (if trips DailyPageLimit then tomorrow_after DailyPageLimitExceeded now
   else if trips SameDayBatchLimit
        then tomorrow_after SameDayBatchLimitExceeded now
   else if trips SuccessThreshold
        then tomorrow_after (LowSuccessRate (calculate_success_rate (stats w)))
                            now
   else if trips HourCutoff then tomorrow_after EveningHours now
   else logger INFO AllChecksOK ;; continue_with_break rules r)
    (deciding_world completed_batch now w).
Proof.
  cbv zeta. unfold decide_continuation, deciding_world, tomorrow_after.
  rewrite bind_run. cbv beta. rewrite bind_run. cbv beta.
  set (w1 := snd (logger INFO
                    (MakingContinuationDecision (Batch.id completed_batch)) w)).
  assert (Hp : fst (load_progress now w1) = fst (load_progress now w)).
  { unfold w1. cbn [logger modify snd]. apply load_progress_ignores_log. }
  rewrite Hp.
  set (w2 := snd (load_progress now w1)).
  assert (Hs2 : stats w2 = stats w).
  { unfold w2. destruct (load_progress_effect now w1) as (H & _).
    rewrite H. unfold w1. destruct w; reflexivity. }
  cbn [guard_trips].
  destruct (daily_page_limit rules
            <=? daily_pages_scraped (fst (load_progress now w)));
    [reflexivity|].
  destruct (same_day_max_batches rules <=?
            len (filter (fun b => Completed.date b =? strftime_date now)
                        (completed_batches (fst (load_progress now w)))));
    [reflexivity|].
  rewrite bind_run. cbv beta. cbn [get fst snd]. rewrite Hs2.
  destruct (Qltb (calculate_success_rate (stats w))
                 (inject_Z (success_threshold rules))); reflexivity.
Qed.

Lemma deciding_world_facts (completed_batch : Batch.t) (now : Z) (w : World) :
  let w2 := deciding_world completed_batch now w in
  stats w2 = stats w /\
  disk_writable w2 = disk_writable w /\
  (disk_writable w = true ->
   PROGRESS_FILE w2 = ProgressJson (fst (load_progress now w))).
Proof.
  cbv zeta. unfold deciding_world.
  set (w1 := snd (logger INFO
                    (MakingContinuationDecision (Batch.id completed_batch)) w)).
  assert (Hp : fst (load_progress now w1) = fst (load_progress now w)).
  { unfold w1. cbn [logger modify snd]. apply load_progress_ignores_log. }
  destruct (load_progress_effect now w1)
    as (H1 & _ & H3 & _ & _ & _ & _ & _ & _ & H10).
  rewrite H1, H3, <- Hp.
  assert (Hw1 : stats w1 = stats w /\ disk_writable w1 = disk_writable w)
    by (unfold w1; destruct w; split; reflexivity).
  destruct Hw1 as [-> Hw]. rewrite Hw in *.
  repeat split. exact H10.
Qed.

(** What the branch of a tripped guard leaves in the progress file. *)
Lemma tomorrow_after_file (msg : Message) (now : Z) (w : World) (p : Progress) :
  disk_writable w = true ->
  PROGRESS_FILE w = ProgressJson p ->
  fst (tomorrow_after msg now w) = Returns TOMORROW /\
  PROGRESS_FILE (snd (tomorrow_after msg now w)) =
    ProgressJson (with_next_session_time (plus_one_day now) p).
Proof.
  intros Hw Hp. unfold tomorrow_after, schedule_tomorrow.
  repeat (rewrite bind_run; cbv beta). cbn [ret fst snd].
  split; [reflexivity|].
  set (w1 := snd (logger INFO ContinuingTomorrow (snd (logger INFO msg w)))).
  assert (H1 : PROGRESS_FILE w1 = ProgressJson p /\ disk_writable w1 = true)
    by (unfold w1; destruct w; cbn in *; split; assumption).
  destruct H1 as [Hf1 Hw1].
  destruct (load_progress_effect now w1)
    as (_ & _ & H3 & _ & _ & _ & _ & _ & H9 & _).
  rewrite (H9 p Hf1).
  rewrite save_progress_run, H3, Hw1. reflexivity.
Qed.

Lemma break_loop_only_logs (activities : list (string * Q)) (total : Q)
      (w : World) :
  exists l, snd (break_loop activities total w) = set_log (log w ++ l) w.
Proof.
  revert w. induction activities as [|[name ratio] rest IH]; intro w.
  - exists []. destruct w; cbn. now rewrite app_nil_r.
  - cbn [break_loop]. rewrite bind_run.
    destruct (Qle_bool 0 (total * ratio)).
    + destruct (IH (snd (logger INFO (BreakActivity name (total * ratio / 60)) w)))
        as (l & Hl).
      rewrite Hl. eexists. destruct w; cbn. rewrite <- app_assoc. reflexivity.
    + eexists. destruct w; cbn. reflexivity.
Qed.

Lemma continue_with_break_only_logs (rules : Rules) (r : Q) (w : World) :
  exists l, snd (continue_with_break rules r w) = set_log (log w ++ l) w.
Proof.
  unfold continue_with_break, intelligent_break.
  repeat (rewrite bind_run; cbv beta).
  rewrite calculate_optimal_break_pure.
  set (d := fst (calculate_optimal_break rules r w)).
  set (w1 := snd (logger INFO (IntelligentBreakStarting d)
                    (snd (logger INFO (MinuteBreakThenNextBatch d) w)))).
  destruct (break_loop_only_logs break_activities (d * 60) w1) as (l & Hl).
  destruct (fst (break_loop break_activities (d * 60) w1));
    repeat (rewrite bind_run; cbv beta); cbn [ret fst snd];
    rewrite Hl; unfold w1; eexists; destruct w; cbn;
    rewrite <- ?app_assoc; reflexivity.
Qed.

(** The progress file after the decision, on a disk that takes writes. *)
Lemma decide_continuation_file (rules : Rules) (completed_batch : Batch.t)
      (now : Z) (r : Q) (w : World) :
  disk_writable w = true ->
  let loaded := fst (load_progress now w) in
  let outcome := fst (decide_continuation rules completed_batch now r w) in
  let w' := snd (decide_continuation rules completed_batch now r w) in
  (outcome = Returns TOMORROW ->
   PROGRESS_FILE w' =
     ProgressJson (with_next_session_time (plus_one_day now) loaded)) /\
  (outcome <> Returns TOMORROW -> PROGRESS_FILE w' = ProgressJson loaded).
Proof.
  intros Hw. cbv zeta.
  rewrite decide_continuation_unfold. cbv zeta.
  destruct (deciding_world_facts completed_batch now w) as (_ & Hw2 & Hf2).
  specialize (Hf2 Hw). rewrite Hw in Hw2.
  set (w2 := deciding_world completed_batch now w) in *.
  set (loaded := fst (load_progress now w)) in *.
  assert (Htomorrow : forall msg,
             (fst (tomorrow_after msg now w2) = Returns TOMORROW ->
              PROGRESS_FILE (snd (tomorrow_after msg now w2)) =
              ProgressJson (with_next_session_time (plus_one_day now) loaded)) /\
             (fst (tomorrow_after msg now w2) <> Returns TOMORROW ->
              PROGRESS_FILE (snd (tomorrow_after msg now w2)) =
              ProgressJson loaded)).
  { intro msg. destruct (tomorrow_after_file msg now w2 loaded Hw2 Hf2)
      as [Hd Hf]. split; [intros _; exact Hf | intro N; contradiction]. }
  destruct (guard_trips rules loaded (stats w) now DailyPageLimit);
    [apply Htomorrow|].
  destruct (guard_trips rules loaded (stats w) now SameDayBatchLimit);
    [apply Htomorrow|].
  destruct (guard_trips rules loaded (stats w) now SuccessThreshold);
    [apply Htomorrow|].
  destruct (guard_trips rules loaded (stats w) now HourCutoff);
    [apply Htomorrow|].
  rewrite bind_run.
  set (w3 := snd (logger INFO AllChecksOK w2)).
  destruct (continue_with_break_run rules r w3) as [Hout _].
  destruct (continue_with_break_only_logs rules r w3) as (l & Hl).
  rewrite Hout, Hl.
  assert (Hf3 : PROGRESS_FILE (set_log (log w3 ++ l) w3) = ProgressJson loaded).
  { unfold w3. destruct w2; cbn in *. exact Hf2. }
  split; [|intros _; exact Hf3].
  destruct (Qle_bool 0 (fst (calculate_optimal_break rules r w3)));
    discriminate.
Qed.

(** X15. What the decision leaves in the progress file, on a disk that
    takes writes.  When the answer is TOMORROW the file holds a state whose
    [next_session_time] is the clock plus one day, which is the same hour
    of the next calendar day, and whose other entries are those of the
    state that was loaded; otherwise the file holds the loaded state as it
    is. *)
Theorem decide_continuation_persists (rules : Rules)
        (completed_batch : Batch.t) (now : Z) (r : Q) (w : World) :
  disk_writable w = true ->
  let loaded := fst (load_progress now w) in
  let outcome := fst (decide_continuation rules completed_batch now r w) in
  let w' := snd (decide_continuation rules completed_batch now r w) in
  (outcome = Returns TOMORROW ->
   exists saved,
     PROGRESS_FILE w' = ProgressJson saved /\
     next_session_time saved = Some (now + 86400) /\
     current_batch_id saved = current_batch_id loaded /\
     completed_batches saved = completed_batches loaded /\
     daily_pages_scraped saved = daily_pages_scraped loaded /\
     last_scrape_date saved = last_scrape_date loaded /\
     session_stats saved = session_stats loaded) /\
  (outcome <> Returns TOMORROW -> PROGRESS_FILE w' = ProgressJson loaded) /\
  strftime_date (now + 86400) = strftime_date now + 1 /\
  hour_of (now + 86400) = hour_of now.
Proof.
  intros Hw. cbv zeta.
  destruct (decide_continuation_file rules completed_batch now r w Hw)
    as [Htomorrow Hother].
  split; [|split; [exact Hother|]].
  - intro Hout. eexists. split; [exact (Htomorrow Hout)|].
    repeat split.
  - unfold strftime_date, hour_of. split.
    + replace (now + 86400) with (now + 1 * 86400) by lia.
      now rewrite Z.div_add by lia.
    + replace (now + 86400) with (now + 24 * 3600) by lia.
      rewrite Z.div_add by lia.
      replace (now / 3600 + 24) with (now / 3600 + 1 * 24) by lia.
      now rewrite Z.mod_add by lia.
Qed.

Lemma decide_continuation_persists_witness :
  let w := set_progress_file (ProgressJson progress_of_yesterday) fresh_world in
  let w' := snd (decide_continuation default_rules batch_1 100000 (1 # 2) w) in
  disk_writable w = true /\
  fst (decide_continuation default_rules batch_1 100000 (1 # 2) w)
    = Returns TOMORROW /\
  exists saved,
    PROGRESS_FILE w' = ProgressJson saved /\
    next_session_time saved = Some 186400 /\
    next_session_time progress_of_yesterday = None /\
    daily_pages_scraped saved = 50.
Proof.
  intros w w'. split; [reflexivity|].
  assert (Hout : fst (decide_continuation default_rules batch_1 100000
                                          (1 # 2) w) = Returns TOMORROW)
    by reflexivity.
  split; [exact Hout|].
  destruct (decide_continuation_persists default_rules batch_1 100000
                                         (1 # 2) w eq_refl) as (H & _).
  destruct (H Hout) as (saved & Hfile & Hnext & _ & _ & Hdaily & _).
  exists saved. split; [exact Hfile|]. split; [exact Hnext|].
  split; [reflexivity|]. exact Hdaily.
Defined.

(** X16. With break minutes that are not negative the decision is always
    reached: [decide_continuation] returns TOMORROW or CONTINUE and no
    sleep of the break raises. *)
Theorem decide_continuation_returns (rules : Rules)
        (completed_batch : Batch.t) (now : Z) (r : Q) (w : World) :
  0 <= min_break_minutes rules ->
  0 <= max_break_minutes rules ->
  is_draw r ->
  fst (decide_continuation rules completed_batch now r w) = Returns TOMORROW \/
  fst (decide_continuation rules completed_batch now r w) = Returns CONTINUE.
Proof.
  intros Hmin Hmax Hr.
  rewrite decide_continuation_unfold. cbv zeta.
  set (w2 := deciding_world completed_batch now w).
  set (loaded := fst (load_progress now w)).
  assert (Htomorrow : forall msg,
             fst (tomorrow_after msg now w2) = Returns TOMORROW).
  { intro msg. now destruct (tomorrow_branch msg now w2). }
  destruct (guard_trips rules loaded (stats w) now DailyPageLimit);
    [left; apply Htomorrow|].
  destruct (guard_trips rules loaded (stats w) now SameDayBatchLimit);
    [left; apply Htomorrow|].
  destruct (guard_trips rules loaded (stats w) now SuccessThreshold);
    [left; apply Htomorrow|].
  destruct (guard_trips rules loaded (stats w) now HourCutoff);
    [left; apply Htomorrow|].
  right. rewrite bind_run.
  set (w3 := snd (logger INFO AllChecksOK w2)).
  destruct (continue_with_break_run rules r w3) as [Hout _].
  rewrite Hout.
  assert (Hbreak : (0 <= fst (calculate_optimal_break rules r w3))%Q).
  { assert (Hb : (0 <= inject_Z (min_break_minutes rules))%Q)
      by (rewrite <- (Zle_Qle 0); exact Hmin).
    assert (Ht : (0 <= inject_Z (max_break_minutes rules))%Q)
      by (rewrite <- (Zle_Qle 0); exact Hmax).
    unfold calculate_optimal_break. rewrite bind_run. cbn [get fst snd].
    destruct (assess_risk_level (stats w3)); cbn [ret fst].
    - pose proof (uniform_between (inject_Z (min_break_minutes rules))
                    (inject_Z (min_break_minutes rules) + 30) r Hr). lra.
    - pose proof (uniform_between (inject_Z (min_break_minutes rules) + 30)
                    (inject_Z (min_break_minutes rules) + 60) r Hr). lra.
    - destruct (Qlt_le_dec (inject_Z (max_break_minutes rules))
                           (inject_Z (min_break_minutes rules) + 60))
        as [Hlt | Hle].
      + pose proof (uniform_between_reversed _ _ r Hr (Qlt_le_weak _ _ Hlt)).
        lra.
      + pose proof (uniform_between _ _ r Hr Hle). lra. }
  apply Qle_bool_iff in Hbreak. now rewrite Hbreak.
Qed.

Lemma decide_continuation_returns_witness :
  0 <= min_break_minutes default_rules /\
  0 <= max_break_minutes default_rules /\
  is_draw (1 # 2) /\
  fst (decide_continuation default_rules batch_1 36000 (1 # 2) fresh_world)
  = Returns CONTINUE.
Proof.
  assert (H1 : 0 <= min_break_minutes default_rules) by (cbn; lia).
  assert (H2 : 0 <= max_break_minutes default_rules) by (cbn; lia).
  assert (H3 : is_draw (1 # 2)) by (split; reflexivity || discriminate).
  split; [exact H1|]. split; [exact H2|]. split; [exact H3|].
  destruct (decide_continuation_returns default_rules batch_1 36000 (1 # 2)
                                        fresh_world H1 H2 H3) as [H | H].
  - vm_compute in H. discriminate H.
  - exact H.
Defined.

(** The second guard decides, when the first has not, as soon as the
    stored log has an entry of today and one batch a day is the most. *)
Lemma same_day_limit_decides (rules : Rules) (completed_batch : Batch.t)
      (now : Z) (r : Q) (w : World) :
  same_day_max_batches rules <= 1 ->
  (exists c, In c (stored_completed (PROGRESS_FILE w)) /\
             Completed.date c = strftime_date now) ->
  fst (decide_continuation rules completed_batch now r w) = Returns TOMORROW.
Proof.
  intros Hmax (c & Hin & Hday).
  rewrite decide_continuation_unfold. cbv zeta.
  set (w2 := deciding_world completed_batch now w).
  assert (Htomorrow : forall msg,
             fst (tomorrow_after msg now w2) = Returns TOMORROW).
  { intro msg. now destruct (tomorrow_branch msg now w2). }
  destruct (guard_trips rules (fst (load_progress now w)) (stats w) now
                        DailyPageLimit); [apply Htomorrow|].
  assert (Hsame : guard_trips rules (fst (load_progress now w)) (stats w)
                              now SameDayBatchLimit = true).
  { cbn [guard_trips]. apply Z.leb_le.
    destruct (load_progress_effect now w)
      as (_ & _ & _ & _ & _ & _ & Hcompleted & _).
    rewrite Hcompleted.
    assert (Hc : In c (filter (fun b => Completed.date b =? strftime_date now)
                              (stored_completed (PROGRESS_FILE w)))).
    { apply filter_In. split; [exact Hin|]. rewrite Hday. apply Z.eqb_refl. }
    unfold len.
    destruct (filter (fun b => Completed.date b =? strftime_date now)
                     (stored_completed (PROGRESS_FILE w)));
      [destruct Hc | cbn [Datatypes.length]; lia]. }
  rewrite Hsame. apply Htomorrow.
Qed.

(** X17. One batch a day.  When the rules allow at most one batch a day,
    as the installed ones do, the decision taken after a batch on the
    calendar day of its completion is TOMORROW, whatever the pages gave,
    on a disk that took the progress of the batch. *)
Theorem one_batch_a_day (rules : Rules) (fetch : Z -> PageOutcome)
        (batch_info : Batch.t) (now later : Z) (r : Q) (w : World) :
  disk_writable w = true ->
  same_day_max_batches rules <= 1 ->
  strftime_date later = strftime_date now ->
  fst (decide_continuation rules batch_info later r
         (snd (run_batch fetch batch_info now w)))
  = Returns TOMORROW.
Proof.
  intros Hw Hmax Hday.
  apply same_day_limit_decides; [exact Hmax|].
  destruct (run_batch_progress fetch batch_info now w Hw)
    as (loaded & _ & _ & Hfile).
  rewrite Hfile. cbn [stored_completed completed_batches].
  eexists. split; [apply in_or_app; right; left; reflexivity|].
  cbn [Completed.date]. now rewrite Hday.
Qed.

Lemma one_batch_a_day_witness :
  disk_writable fresh_world = true /\
  same_day_max_batches default_rules <= 1 /\
  strftime_date 120000 = strftime_date 100000 /\
  fst (decide_continuation default_rules batch_1 120000 (1 # 2)
         (snd (run_batch (fun _ => PageRows [sample_row] 2) batch_1 100000
                         fresh_world)))
  = Returns TOMORROW.
Proof.
  assert (H : same_day_max_batches default_rules <= 1) by (cbn; lia).
  split; [reflexivity|]. split; [exact H|]. split; [reflexivity|].
  exact (one_batch_a_day default_rules (fun _ => PageRows [sample_row] 2)
                         batch_1 100000 120000 (1 # 2) fresh_world
                         eq_refl H eq_refl).
Defined.

(** ** The break *)

(** X18. The break is spent whole or not at all.  A break of a length
    that is not negative returns after four activities whose minutes add
    up to the length of the break; a break of negative length raises at
    its first sleep, before any other activity.  Either way only the log
    changes. *)
Theorem intelligent_break_activities (d : Q) (w : World) :
  let outcome := fst (intelligent_break d w) in
  let w' := snd (intelligent_break d w) in
  let minutes := fun ratio : Q => (d * 60 * ratio / 60)%Q in
  ((0 <= d)%Q ->
   outcome = Returns tt /\
   w' = set_log
          (log w ++
           [(INFO, IntelligentBreakStarting d);
            (INFO, BreakActivity "Coffee break" (minutes (3 # 10)));
            (INFO, BreakActivity "Email check" (minutes (2 # 10)));
            (INFO, BreakActivity "Social media" (minutes (2 # 10)));
            (INFO, BreakActivity "Rest" (minutes (3 # 10)));
            (INFO, BreakCompleted)]) w /\
   (minutes (3 # 10) + minutes (2 # 10) + minutes (2 # 10) + minutes (3 # 10)
    == d)%Q) /\
  ((d < 0)%Q ->
   outcome = Raises /\
   w' = set_log
          (log w ++
           [(INFO, IntelligentBreakStarting d);
            (INFO, BreakActivity "Coffee break" (minutes (3 # 10)))]) w).
Proof.
  cbv zeta. unfold intelligent_break, break_activities.
  cbn [break_loop].
  split; intro Hd.
  - apply Qle_bool_iff in Hd.
    repeat (rewrite bind_run; cbv beta;
            rewrite ?break_sleep_sign by reflexivity; rewrite ?Hd).
    split; [reflexivity|]. split; [|field].
    destruct w.
    cbn [bind ret logger modify fst snd set_log log listings scraped_pages
         current_batch stats PROGRESS_FILE TOTAL_CSV_FILE disk_writable].
    rewrite <- !app_assoc. reflexivity.
  - assert (Hn : Qle_bool 0 d = false).
    { destruct (Qle_bool 0 d) eqn:E; [|reflexivity].
      apply Qle_bool_iff in E. lra. }
    repeat (rewrite bind_run; cbv beta;
            rewrite ?break_sleep_sign by reflexivity; rewrite ?Hn).
    split; [reflexivity|].
    destruct w.
    cbn [bind ret logger modify fst snd set_log log listings scraped_pages
         current_batch stats PROGRESS_FILE TOTAL_CSV_FILE disk_writable].
    rewrite <- !app_assoc. reflexivity.
Qed.

Lemma intelligent_break_activities_witness :
  fst (intelligent_break 30 fresh_world) = Returns tt /\
  fst (intelligent_break (-1) fresh_world) = Raises.
Proof.
  split.
  - apply (proj1 (intelligent_break_activities 30 fresh_world)).
    discriminate.
  - apply (proj2 (intelligent_break_activities (-1) fresh_world)).
    reflexivity.
Defined.


(** ** The page delay *)

(** X19. The delay between two pages never asks for a negative sleep, so
    that [smart_page_delay] cannot raise: every sleep lasts 9 seconds or
    more; and the sleeps add up to the delay drawn less one second for each
    part of odd rank, which is between 57 and 150 seconds. *)
Theorem smart_page_delay_sleeps_bounds (r : Q) (chunks : Z) :
  is_draw r ->
  3 <= chunks <= 6 ->
  let delay := uniform MIN_PAGE_DELAY MAX_PAGE_DELAY r in
  let sleeps := smart_page_delay_sleeps r chunks in
  len sleeps = chunks /\
  Forall (fun s => (9 <= s)%Q) sleeps /\
  (Qsum sleeps == delay - inject_Z (chunks / 2))%Q /\
  (57 <= Qsum sleeps < 150)%Q.
Proof.
  intros Hr Hchunks. cbv zeta.
  unfold smart_page_delay_sleeps, page_delay_sleeps.
  assert (Hdelay : (60 <= uniform MIN_PAGE_DELAY MAX_PAGE_DELAY r < 150)%Q).
  { unfold uniform, MIN_PAGE_DELAY, MAX_PAGE_DELAY, is_draw in *. lra. }
  set (delay := uniform MIN_PAGE_DELAY MAX_PAGE_DELAY r) in *.
  assert (Hcases : chunks = 3 \/ chunks = 4 \/ chunks = 5 \/ chunks = 6) by lia.
  destruct Hcases as [-> | [-> | [-> | ->]]];
    (split; [reflexivity|]);
    change (range 0 3) with [0; 1; 2];
    change (range 0 4) with [0; 1; 2; 3];
    change (range 0 5) with [0; 1; 2; 3; 4];
    change (range 0 6) with [0; 1; 2; 3; 4; 5];
    cbn [map Qsum fold_right];
    repeat match goal with
           | |- context [?a mod 2 =? 0] =>
               let b := eval vm_compute in (a mod 2 =? 0) in
               change (a mod 2 =? 0) with b
           end;
    cbv beta iota;
    change (inject_Z 3) with 3%Q; change (inject_Z 4) with 4%Q;
    change (inject_Z 5) with 5%Q; change (inject_Z 6) with 6%Q;
    change (inject_Z (3 / 2)) with 1%Q; change (inject_Z (4 / 2)) with 2%Q;
    change (inject_Z (5 / 2)) with 2%Q; change (inject_Z (6 / 2)) with 3%Q;
    unfold Qdiv;
    change (/ 3)%Q with (1 # 3)%Q; change (/ 4)%Q with (1 # 4)%Q;
    change (/ 5)%Q with (1 # 5)%Q; change (/ 6)%Q with (1 # 6)%Q;
    (split; [repeat (apply Forall_cons || apply Forall_nil); lra
            | split; [ring | lra]]).
Qed.

Lemma smart_page_delay_sleeps_bounds_witness :
  is_draw (1 # 3) /\ 3 <= 4 <= 6 /\
  Forall (fun s => (9 <= s)%Q) (smart_page_delay_sleeps (1 # 3) 4) /\
  (Qsum (smart_page_delay_sleeps (1 # 3) 4) == 88)%Q.
Proof.
  assert (H1 : is_draw (1 # 3)) by (split; reflexivity || discriminate).
  assert (H2 : 3 <= 4 <= 6) by lia.
  split; [exact H1|]. split; [exact H2|].
  destruct (smart_page_delay_sleeps_bounds (1 # 3) 4 H1 H2)
    as (_ & Hall & Hsum & _).
  split; [exact Hall|]. rewrite Hsum. reflexivity.
Defined.

(** ** The orchestrator *)

Lemma tomorrow_after_writable (msg : Message) (now : Z) (w : World) :
  disk_writable (snd (tomorrow_after msg now w)) = disk_writable w.
Proof.
  unfold tomorrow_after, schedule_tomorrow.
  repeat (rewrite bind_run; cbv beta). cbn [ret fst snd].
  rewrite save_progress_run.
  set (w1 := snd (logger INFO ContinuingTomorrow (snd (logger INFO msg w)))).
  destruct (load_progress_effect now w1) as (_ & _ & H3 & _).
  assert (H1 : disk_writable w1 = disk_writable w)
    by (unfold w1; destruct w; reflexivity).
  destruct (disk_writable (snd (load_progress now w1))) eqn:E;
    cbn [snd set_log set_progress_file disk_writable]; congruence.
Qed.

Lemma decide_continuation_writable (rules : Rules) (completed_batch : Batch.t)
      (now : Z) (r : Q) (w : World) :
  disk_writable (snd (decide_continuation rules completed_batch now r w)) =
  disk_writable w.
Proof.
  rewrite decide_continuation_unfold. cbv zeta.
  destruct (deciding_world_facts completed_batch now w) as (_ & Hw2 & _).
  set (w2 := deciding_world completed_batch now w) in *.
  destruct (guard_trips _ _ _ _ DailyPageLimit);
    [now rewrite tomorrow_after_writable|].
  destruct (guard_trips _ _ _ _ SameDayBatchLimit);
    [now rewrite tomorrow_after_writable|].
  destruct (guard_trips _ _ _ _ SuccessThreshold);
    [now rewrite tomorrow_after_writable|].
  destruct (guard_trips _ _ _ _ HourCutoff);
    [now rewrite tomorrow_after_writable|].
  rewrite bind_run.
  destruct (continue_with_break_only_logs rules r
              (snd (logger INFO AllChecksOK w2))) as (l & Hl).
  rewrite Hl. rewrite <- Hw2. destruct w2; reflexivity.
Qed.

(** A batch and a decision move the stored id one step on. *)
Lemma stored_id_after_turn (rules : Rules) (fetch : Z -> PageOutcome)
      (batch : Batch.t) (now later : Z) (r : Q) (w : World) :
  disk_writable w = true ->
  let w2 := snd (run_batch fetch batch now w) in
  let w3 := snd (decide_continuation rules batch later r w2) in
  disk_writable w3 = true /\
  stored_batch_id (PROGRESS_FILE w3) = Batch.id batch + 1.
Proof.
  intros Hw w2 w3.
  destruct (run_batch_anatomy fetch batch now w) as (_ & _ & _ & _ & Hw2 & _).
  fold w2 in Hw2. rewrite Hw in Hw2.
  destruct (run_batch_effect fetch batch now w) as (_ & Hfile & _).
  destruct (Hfile Hw) as (p & c & Hp & Hid & _). fold w2 in Hp.
  split.
  - unfold w3. now rewrite decide_continuation_writable.
  - destruct (decide_continuation_file rules batch later r w2 Hw2)
      as [Htomorrow Hother].
    fold w3 in Htomorrow, Hother.
    assert (Hloaded : fst (load_progress later w2) = p).
    { destruct (load_progress_effect later w2)
        as (_ & _ & _ & _ & _ & _ & _ & _ & H & _). now apply H. }
    rewrite Hloaded in Htomorrow, Hother.
    destruct (decide_continuation rules batch later r w2) as [[[|]|] w4] eqn:E;
      cbn [fst snd] in *.
    + rewrite Hother by discriminate. exact Hid.
    + rewrite Htomorrow by reflexivity. exact Hid.
    + rewrite Hother by discriminate. exact Hid.
Qed.

Lemma batches_from_le (id : Z) (batches : list Batch.t) :
  (List.length (batches_from (id + 1) batches)
   <= List.length (batches_from id batches))%nat.
Proof.
  unfold batches_from. induction batches as [|b rest IH]; [reflexivity|].
  cbn [filter].
  destruct (id + 1 <=? Batch.id b) eqn:E1; destruct (id <=? Batch.id b) eqn:E2;
    cbn [Datatypes.length]; try lia.
  all: apply Z.leb_le in E1; apply Z.leb_gt in E2; lia.
Qed.

Lemma batches_from_lt (id : Z) (batches : list Batch.t) (batch : Batch.t) :
  In batch batches ->
  Batch.id batch = id ->
  (List.length (batches_from (id + 1) batches)
   < List.length (batches_from id batches))%nat.
Proof.
  intros Hin Hid. unfold batches_from.
  induction batches as [|b rest IH]; [destruct Hin|].
  cbn [filter]. destruct Hin as [-> | Hin].
  - rewrite Hid, Z.leb_refl.
    assert (E : (id + 1 <=? id) = false) by (apply Z.leb_gt; lia).
    rewrite E. cbn [Datatypes.length].
    pose proof (batches_from_le id rest) as Hle. unfold batches_from in Hle.
    lia.
  - specialize (IH Hin).
    destruct (id + 1 <=? Batch.id b) eqn:E1;
      destruct (id <=? Batch.id b) eqn:E2; cbn [Datatypes.length]; try lia.
    all: apply Z.leb_le in E1; apply Z.leb_gt in E2; lia.
Qed.

Lemma get_next_batch_found (batches : list Batch.t) (now : Z) (w : World)
      (batch : Batch.t) :
  fst (get_next_batch batches now w) = Some batch ->
  In batch batches /\ Batch.id batch = stored_batch_id (PROGRESS_FILE w).
Proof.
  unfold get_next_batch. rewrite bind_run. cbn [ret fst].
  destruct (load_progress_effect now w) as (_ & _ & _ & _ & _ & Hid & _).
  rewrite Hid. intro Hfind. apply find_some in Hfind.
  destruct Hfind as [Hin Heq]. apply Z.eqb_eq in Heq. now split.
Qed.

(** The depth of the recursion, on a disk that takes writes: the turns
    suffice when they outnumber the batches still to come. *)
Lemma run_hybrid_system_depth (rules : Rules) (batches : list Batch.t)
      (turns : list Turn) (w : World) :
  disk_writable w = true ->
  (List.length (batches_from (stored_batch_id (PROGRESS_FILE w)) batches)
   < List.length turns)%nat ->
  exists events, fst (run_hybrid_system rules batches turns w) = Ran events.
Proof.
  revert w. induction turns as [|turn later IH]; intros w Hw Hlen.
  - cbn in Hlen. lia.
  - cbn [run_hybrid_system].
    destruct (setup_ok turn); cbn [negb]; [|eexists; reflexivity].
    rewrite bind_run.
    pose proof (get_next_batch_found batches (clock_start turn) w) as Hnext.
    assert (Hw1 : disk_writable (snd (get_next_batch batches (clock_start turn) w))
                  = true /\
                  stored_batch_id
                    (PROGRESS_FILE (snd (get_next_batch batches (clock_start turn) w)))
                  = stored_batch_id (PROGRESS_FILE w)).
    { unfold get_next_batch. rewrite bind_run. cbn [ret snd].
      destruct (load_progress_effect (clock_start turn) w)
        as (_ & _ & H3 & _ & _ & H6 & _ & _ & _ & H10).
      rewrite H3, (H10 Hw). cbn [stored_batch_id]. split; [exact Hw | exact H6]. }
    destruct Hw1 as [Hw1 Hid1].
    set (w1 := snd (get_next_batch batches (clock_start turn) w)) in *.
    destruct (fst (get_next_batch batches (clock_start turn) w)) as [batch|];
      [|eexists; reflexivity].
    destruct (Hnext batch eq_refl) as [Hin Hid].
    rewrite bind_run.
    destruct (run_batch_effect (fetch_of turn) batch (clock_batch turn) w1)
      as (Hret & _).
    rewrite Hret. cbn [negb]. rewrite bind_run.
    destruct (stored_id_after_turn rules (fetch_of turn) batch
                (clock_batch turn) (clock_decide turn) (draw_of turn) w1 Hw1)
      as [Hw3 Hid3].
    set (w3 := snd (decide_continuation rules batch (clock_decide turn)
                      (draw_of turn)
                      (snd (run_batch (fetch_of turn) batch
                                      (clock_batch turn) w1)))) in *.
    destruct (fst (decide_continuation rules batch (clock_decide turn)
                     (draw_of turn)
                     (snd (run_batch (fetch_of turn) batch
                                     (clock_batch turn) w1))))
      as [[|]|]; [|eexists; reflexivity|eexists; reflexivity].
    rewrite bind_run. cbn [ret fst].
    destruct (IH w3 Hw3) as (events & Hevents).
    + rewrite Hid3, Hid.
      pose proof (batches_from_lt _ batches batch Hin Hid) as Hlt.
      cbn [Datatypes.length] in Hlen. lia.
    + rewrite Hevents. eexists. reflexivity.
Qed.

(** The decision after a batch, on the day of the batch, under a rule of
    one batch a day. *)
Lemma same_day_after_batch (rules : Rules) (fetch : Z -> PageOutcome)
      (batch_info : Batch.t) (now later : Z) (r : Q) (w : World) :
  disk_writable w = true ->
  same_day_max_batches rules <= 1 ->
  strftime_date later = strftime_date now ->
  fst (decide_continuation rules batch_info later r
         (snd (run_batch fetch batch_info now w)))
  = Returns TOMORROW.
Proof.
  intros Hw Hmax Hday.
  apply same_day_limit_decides; [exact Hmax|].
  destruct (run_batch_progress fetch batch_info now w Hw)
    as (loaded & _ & _ & Hfile).
  rewrite Hfile. cbn [stored_completed completed_batches].
  eexists. split; [apply in_or_app; right; left; reflexivity|].
  cbn [Completed.date]. now rewrite Hday.
Qed.

(** X20. On a disk that takes writes the recursion of [run_hybrid_system]
    is no deeper than the configured batches are many: every call that
    calls itself has run a batch and moved the stored id past it, so with
    more turns than batches the run always returns. *)
Theorem run_hybrid_system_returns (rules : Rules) (batches : list Batch.t)
        (turns : list Turn) (w : World) :
  disk_writable w = true ->
  (List.length batches < List.length turns)%nat ->
  exists events, fst (run_hybrid_system rules batches turns w) = Ran events.
Proof.
  intros Hw Hlen. apply run_hybrid_system_depth; [exact Hw|].
  unfold batches_from.
  pose proof (filter_length_le
                (fun b => stored_batch_id (PROGRESS_FILE w) <=? Batch.id b)
                batches).
  lia.
Qed.

Lemma run_hybrid_system_returns_witness :
  disk_writable fresh_world = true /\
  (List.length [batch_1] < 2)%nat /\
  exists events,
    fst (run_hybrid_system default_rules [batch_1]
           [mkTurn true fails_on_55 100000 100000 100000 (1 # 2);
            mkTurn true fails_on_55 100000 100000 100000 (1 # 2)]
           fresh_world) = Ran events.
Proof.
  split; [reflexivity|]. split; [cbn; lia|].
  apply run_hybrid_system_returns; [reflexivity | cbn; lia].
Defined.

(** X21. One batch for each run under a rule of one batch a day.  With
    the driver set up, on a disk that takes writes and with the decision
    taken on the calendar day of the batch, [run_hybrid_system] runs the
    next batch, if there is one, decides for tomorrow and returns without
    calling itself: the turns that follow are not used. *)
Theorem run_hybrid_system_one_batch (rules : Rules) (batches : list Batch.t)
        (turn : Turn) (later : list Turn) (w : World) :
  disk_writable w = true ->
  same_day_max_batches rules <= 1 ->
  setup_ok turn = true ->
  strftime_date (clock_decide turn) = strftime_date (clock_batch turn) ->
  let looked_up := get_next_batch batches (clock_start turn) w in
  match fst looked_up with
  | None =>
      run_hybrid_system rules batches (turn :: later) w =
      (Ran [HybridStarting; AllBatchesCompleted], snd looked_up)
  | Some batch =>
      run_hybrid_system rules batches (turn :: later) w =
      (Ran [HybridStarting; SystemWillContinueTomorrow],
       snd (decide_continuation rules batch (clock_decide turn) (draw_of turn)
              (snd (run_batch (fetch_of turn) batch (clock_batch turn)
                              (snd looked_up)))))
  end.
Proof.
  intros Hw Hmax Hsetup Hday. cbv zeta.
  cbn [run_hybrid_system]. rewrite Hsetup. cbn [negb].
  rewrite bind_run.
  assert (Hw1 : disk_writable (snd (get_next_batch batches (clock_start turn) w))
                = true).
  { unfold get_next_batch. rewrite bind_run. cbn [ret snd].
    destruct (load_progress_effect (clock_start turn) w) as (_ & _ & H3 & _).
    congruence. }
  set (w1 := snd (get_next_batch batches (clock_start turn) w)) in *.
  destruct (fst (get_next_batch batches (clock_start turn) w)) as [batch|];
    [|reflexivity].
  rewrite bind_run.
  destruct (run_batch_effect (fetch_of turn) batch (clock_batch turn) w1)
    as (Hok & _).
  rewrite Hok. cbn [negb].
  rewrite bind_run.
  rewrite (same_day_after_batch rules (fetch_of turn) batch (clock_batch turn)
             (clock_decide turn) (draw_of turn) w1 Hw1 Hmax Hday).
  reflexivity.
Qed.

Lemma run_hybrid_system_one_batch_witness :
  same_day_max_batches default_rules <= 1 /\
  fst (run_hybrid_system default_rules [batch_1]
         [mkTurn true fails_on_55 100000 100000 100000 (1 # 2)] fresh_world)
  = Ran [HybridStarting; SystemWillContinueTomorrow].
Proof.
  assert (Hmax : same_day_max_batches default_rules <= 1) by (cbn; lia).
  split; [exact Hmax|].
  pose proof (run_hybrid_system_one_batch default_rules [batch_1]
                (mkTurn true fails_on_55 100000 100000 100000 (1 # 2)) []
                fresh_world eq_refl Hmax eq_refl eq_refl) as H.
  cbv zeta in H.
  assert (E : fst (get_next_batch [batch_1]
                     (clock_start
                        (mkTurn true fails_on_55 100000 100000 100000 (1 # 2)))
                     fresh_world) = Some batch_1) by (vm_compute; reflexivity).
  rewrite E in H. rewrite H. reflexivity.
Defined.
